(** * Verification of the IncludEd ai-service structure pipeline

    Shallow embedding of
    - [ml_pipeline/content_classifier.py] ([ContentClassifier.classify]) and
    - [ml_pipeline/structural_segmenter.py] ([StructuralSegmenter._tokenise],
      [_build_play_hierarchy], [_fallback_single_unit],
      [_build_novel_hierarchy], [_analyse_play_content]).

    Text is modelled as ASCII [string]s; the character classes of Python's
    [str] methods and of the [re] module are written out for the ASCII range
    (characters 128..255 belong to none of them in this model).  The
    regular expressions of the two modules are written as terms of a small
    backtracking matcher with Python's greedy, left-to-right priority.
    Scores are Python floats.  [Classify] models them exactly in [Q];
    [ClassifyF64] keeps them as IEEE 754 binary64 doubles, rounding each
    operation as Python does. *)

From Stdlib Require Import String Ascii List Bool Arith Lia ZArith QArith Qround Lqa.
From Stdlib Require Floats.
Import ListNotations.
Open Scope string_scope.
Open Scope nat_scope.

(** ** Character classes (ASCII part of Python's Unicode predicates) *)

Definition code (c : ascii) : nat := nat_of_ascii c.

Definition is_upper (c : ascii) : bool := (65 <=? code c) && (code c <=? 90).
Definition is_lower (c : ascii) : bool := (97 <=? code c) && (code c <=? 122).
Definition is_alpha (c : ascii) : bool := is_upper c || is_lower c.
Definition is_digit (c : ascii) : bool := (48 <=? code c) && (code c <=? 57).
(** [str.isspace] / [\s]: tab..carriage return, the separators 28..31, space. *)
Definition is_space (c : ascii) : bool :=
  let n := code c in ((9 <=? n) && (n <=? 13)) || ((28 <=? n) && (n <=? 32)).
Definition is_word (c : ascii) : bool :=
  is_alpha c || is_digit c || Ascii.eqb c "_"%char.

Definition to_upper (c : ascii) : ascii :=
  if is_lower c then ascii_of_nat (code c - 32) else c.
Definition to_lower (c : ascii) : ascii :=
  if is_upper c then ascii_of_nat (code c + 32) else c.

Definition str_upper (s : string) : string := string_of_list_ascii (map to_upper (list_ascii_of_string s)).

Fixpoint str_prefix (p s : string) : bool :=
  match p, s with
  | EmptyString, _ => true
  | String a p', String b s' => Ascii.eqb a b && str_prefix p' s'
  | _, _ => false
  end.

(** Python's [sub in s]. *)
Fixpoint str_contains (sub s : string) : bool :=
  str_prefix sub s ||
  match s with
  | EmptyString => false
  | String _ s' => str_contains sub s'
  end.

(** Python's slice [s[a:b]] for [0 <= a], [b <= len s]. *)
Definition slice (s : string) (a b : nat) : string := substring a (b - a) s.

Fixpoint lstrip (s : string) : string :=
  match s with
  | String c s' => if is_space c then lstrip s' else s
  | EmptyString => EmptyString
  end.

Definition rev_str (s : string) : string := string_of_list_ascii (rev (list_ascii_of_string s)).

(** Python's [str.strip()]. *)
Definition strip (s : string) : string := rev_str (lstrip (rev_str (lstrip s))).

(** Python's [len(s.split())]: the number of maximal non-space runs. *)
Fixpoint count_words_aux (in_word : bool) (s : string) : nat :=
  match s with
  | EmptyString => 0
  | String c s' =>
      if is_space c then count_words_aux false s'
      else (if in_word then 0 else 1) + count_words_aux true s'
  end.
Definition split_len (s : string) : nat := count_words_aux false s.

(** Python's [any(c.islower() for c in w if c.isalpha())]. *)
Definition has_lowercase (w : string) : bool := existsb is_lower (list_ascii_of_string w).

(** ** A backtracking matcher for Python's [re] *)

Inductive rx : Type :=
| RChar (p : ascii -> bool)                  (** one character of a class *)
| RSeq (a b : rx)
| RAlt (a b : rx)                            (** [a|b], [a] tried first *)
| RRep (a : rx) (lo : nat) (hi : option nat) (** greedy [a{lo,hi}] *)
| RBol                                       (** [^] *)
| REol                                       (** [$] *)
| RWordB.                                    (** [\b] *)

Fixpoint rx_size (r : rx) : nat :=
  match r with
  | RSeq a b | RAlt a b => S (rx_size a + rx_size b)
  | RRep a lo _ => S (rx_size a + lo)
  | _ => 1
  end.

Definition word_at (s : string) (i : nat) : bool :=
  match get i s with Some c => is_word c | None => false end.

Definition at_word_boundary (s : string) (i : nat) : bool :=
  let before := match i with 0 => false | S j => word_at s j end in
  xorb before (word_at s i).

Definition is_newline (o : option ascii) : bool :=
  match o with Some c => Ascii.eqb c "010"%char | None => false end.

(** [mt fuel s r i k]: match [r] at position [i] of [s], then run the
    continuation [k] on the end position; the first success in Python's
    priority order is returned.  No repeated sub-pattern used below can
    match the empty string. *)
Fixpoint mt (fuel : nat) (s : string) (r : rx) (i : nat) (k : nat -> option nat) : option nat :=
  match fuel with
  | 0 => None
  | S f =>
    match r with
    | RChar p => match get i s with Some c => if p c then k (S i) else None | None => None end
    | RSeq a b => mt f s a i (fun j => mt f s b j k)
    | RAlt a b => match mt f s a i k with Some e => Some e | None => mt f s b i k end
    | RRep a (S lo) hi => mt f s a i (fun j => mt f s (RRep a lo (option_map pred hi)) j k)
    | RRep a 0 (Some 0) => k i
    | RRep a 0 hi =>
        match mt f s a i (fun j => if i <? j then mt f s (RRep a 0 (option_map pred hi)) j k else None) with
        | Some e => Some e
        | None => k i
        end
    | RBol => if i =? 0 then k i else None
    | REol =>
        if (i =? String.length s) || ((S i =? String.length s) && is_newline (get i s))
        then k i else None
    | RWordB => if at_word_boundary s i then k i else None
    end
  end.

(** Enough fuel for the depth of any match attempt of [r] on [s]. *)
Definition fuel_for (r : rx) (s : string) : nat := 4 * (rx_size r + 1) * (String.length s + 2).

(** Python's [r.match(s, pos)] anchored at [i]: the end of the match. *)
Definition rx_match_at (r : rx) (s : string) (i : nat) : option nat :=
  mt (fuel_for r s) s r i (fun j => Some j).

(** [pattern.match(s)] *)
Definition rx_match (r : rx) (s : string) : bool :=
  match rx_match_at r s 0 with Some _ => true | None => false end.

(** First match at a start position [>= i]: [(start, end)]. *)
Fixpoint search_from (r : rx) (s : string) (i : nat) (n : nat) : option (nat * nat) :=
  match rx_match_at r s i with
  | Some e => Some (i, e)
  | None => match n with 0 => None | S n' => search_from r s (S i) n' end
  end.

(** [pattern.search(s)] *)
Definition rx_search (r : rx) (s : string) : bool :=
  match search_from r s 0 (String.length s) with Some _ => true | None => false end.

(** [pattern.finditer(s)] as the list of [(start, end)] spans. *)
Fixpoint finditer_from (r : rx) (s : string) (i : nat) (n : nat) : list (nat * nat) :=
  match n with
  | 0 => []
  | S n' =>
    if String.length s <? i then [] else
    match search_from r s i (String.length s - i) with
    | Some (st, e) => (st, e) :: finditer_from r s (if e =? st then S e else e) n'
    | None => []
    end
  end.

Definition finditer (r : rx) (s : string) : list (nat * nat) :=
  finditer_from r s 0 (S (String.length s)).

(** [len(pattern.findall(s))] *)
Definition findall_count (r : rx) (s : string) : nat := length (finditer r s).

(** *** Pattern building blocks *)

Fixpoint rx_lit (p : ascii -> ascii) (w : string) : rx :=
  match w with
  | EmptyString => RRep (RChar (fun _ => false)) 0 (Some 0)
  | String c EmptyString => RChar (fun d => Ascii.eqb (p d) (p c))
  | String c w' => RSeq (RChar (fun d => Ascii.eqb (p d) (p c))) (rx_lit p w')
  end.

(** a literal, case-sensitive / under [re.IGNORECASE] *)
Definition lit (w : string) : rx := rx_lit (fun c => c) w.
Definition ilit (w : string) : rx := rx_lit to_upper w.

(** a character class under [re.IGNORECASE] *)
Definition icls (p : ascii -> bool) : ascii -> bool :=
  fun c => p c || p (to_upper c) || p (to_lower c).

Definition in_chars (w : string) (c : ascii) : bool :=
  existsb (Ascii.eqb c) (list_ascii_of_string w).

Definition plus (a : rx) : rx := RRep a 1 None.
Definition star (a : rx) : rx := RRep a 0 None.
Definition opt (a : rx) : rx := RRep a 0 (Some 1).
Definition seqs (l : list rx) : rx := fold_right RSeq (RRep (RChar (fun _ => false)) 0 (Some 0)) l.
Definition alts (a : rx) (l : list rx) : rx := fold_left RAlt l a.

Definition sp : rx := RChar is_space.
Definition dg : rx := RChar is_digit.

(** *** content_classifier.py patterns *)
Module Classifier.

(** [\bACT\s+([IVX]+|\d+)\b], IGNORECASE *)
Definition ACT_RE : rx :=
  seqs [RWordB; ilit "ACT"; plus sp;
        RAlt (plus (RChar (icls (in_chars "IVX")))) (plus dg); RWordB].
(** [\bSCENE\s+([IVX]+|\d+)\b], IGNORECASE *)
Definition SCENE_RE : rx :=
  seqs [RWordB; ilit "SCENE"; plus sp;
        RAlt (plus (RChar (icls (in_chars "IVX")))) (plus dg); RWordB].
(** [^[A-Z][A-Z\s'\.]{1,28}[A-Z]\.?\s*$] *)
Definition CUE_RE : rx :=
  seqs [RBol; RChar is_upper;
        RRep (RChar (fun c => is_upper c || is_space c || in_chars "'." c)) 1 (Some 28);
        RChar is_upper; opt (lit "."); star sp; REol].
(** [^[\[(].*[\])]$] *)
Definition STAGE_RE : rx :=
  seqs [RBol; RChar (in_chars "[("); star (RChar (fun c => negb (Ascii.eqb c "010"%char)));
        RChar (in_chars "])"); REol].
(** [(DRAMATIS|CAST OF|LIST OF)\s+(PERSONAE|CHARACTERS)], IGNORECASE *)
Definition CAST_RE : rx :=
  seqs [alts (ilit "DRAMATIS") [ilit "CAST OF"; ilit "LIST OF"]; plus sp;
        RAlt (ilit "PERSONAE") (ilit "CHARACTERS")].
(** [\((?:Enter|Exit|Exeunt|Aside|to\s+\w+)[^)]*\)], IGNORECASE *)
Definition STAGE_VERB : rx :=
  seqs [lit "("; alts (ilit "Enter") [ilit "Exit"; ilit "Exeunt"; ilit "Aside";
                                       seqs [ilit "to"; plus sp; plus (RChar is_word)]];
        star (RChar (fun c => negb (Ascii.eqb c ")"%char))); lit ")"].
(** [\b(CHAPTER|PROLOGUE|EPILOGUE|PART)\s+([\dIVX]+|[A-Z][a-z]+)?\b], IGNORECASE *)
Definition CHAPTER_RE : rx :=
  seqs [RWordB; alts (ilit "CHAPTER") [ilit "PROLOGUE"; ilit "EPILOGUE"; ilit "PART"]; plus sp;
        opt (RAlt (plus (RChar (icls (fun c => is_digit c || in_chars "IVX" c))))
                  (RSeq (RChar (icls is_upper)) (plus (RChar (icls is_lower)))));
        RWordB].
(** [\bI\b(?:'[a-z]+)?\s] *)
Definition FIRST_PERS : rx :=
  seqs [RWordB; lit "I"; RWordB; opt (RSeq (lit "'") (plus (RChar is_lower))); sp].
(** [\b(said|replied|whispered|shouted|murmured|asked)\b] *)
Definition SAID_RE : rx :=
  seqs [RWordB; alts (lit "said") [lit "replied"; lit "whispered"; lit "shouted";
                                    lit "murmured"; lit "asked"]; RWordB].
(** [[a-z][a-z\s,;]{60,}[.!?]] *)
Definition PROSE_RE : rx :=
  seqs [RChar is_lower; RRep (RChar (fun c => is_lower c || is_space c || in_chars ",;" c)) 60 None;
        RChar (in_chars ".!?")].

End Classifier.

(** *** structural_segmenter.py patterns *)
Module Segmenter.

(** [\bACT\s+([IVX]+|\d+)\b], IGNORECASE *)
Definition SMUSHED_ACT_RE : rx := Classifier.ACT_RE.
(** [\bSCENE\s+([IVX]+|\d+)\b], IGNORECASE *)
Definition SMUSHED_SCENE_RE : rx := Classifier.SCENE_RE.
(** [^(?:[\d\s]* )?\b(CHAPTER|PROLOGUE|EPILOGUE|PART)\s+([\dIVX]+|[A-Z][a-z]+)?\b], IGNORECASE
    (the blank after the star is not part of the pattern) *)
Definition CHAPTER_RE : rx :=
  seqs [RBol; opt (star (RChar (fun c => is_digit c || is_space c)));
        RWordB; alts (ilit "CHAPTER") [ilit "PROLOGUE"; ilit "EPILOGUE"; ilit "PART"]; plus sp;
        opt (RAlt (plus (RChar (icls (fun c => is_digit c || in_chars "IVX" c))))
                  (RSeq (RChar (icls is_upper)) (plus (RChar (icls is_lower)))));
        RWordB].
(** [^[A-Z][A-Z\s'\.]{1,28}[A-Z]\.?\s*$] *)
Definition CUE_RE : rx := Classifier.CUE_RE.

End Segmenter.

(** ** Input model: PyMuPDF-style blocks *)

(** A block dict: its ["type"] (only [0], text, is read) and its ["lines"],
    each line being the list of the ["text"] fields of its ["spans"]. *)
Record block : Type := mkBlock { btype : nat; blines : list (list string) }.

(** [("".join(s["text"] for s in l["spans"])).strip()] *)
Definition line_text (spans : list string) : string := strip (String.concat "" spans).

(** [ContentClassifier._extract_lines] *)
Definition extract_lines (blocks : list block) : list string :=
  flat_map (fun b => if btype b =? 0
                     then filter (fun t => negb (t =? "")%string) (map line_text (blines b))
                     else []) blocks.

(** The [doc_type] strings ["play"], ["novel"], ["generic"]. *)
Inductive doc_type : Type := Play | Novel | Generic.

Definition doc_type_eqb (a b : doc_type) : bool :=
  match a, b with Play, Play | Novel, Novel | Generic, Generic => true | _, _ => false end.

(** ** StructuralSegmenter._tokenise *)
Module Tokenise.

Inductive level : Type := Act | Scene | Chapter.

(** [{"type": "heading", "level", "title", "inferred"}] / [{"type": "content", "text"}] *)
Inductive token : Type :=
| Heading (lvl : level) (title : string) (inferred : bool)
| Content (text : string).

Definition is_heading (t : token) : bool := match t with Heading _ _ _ => true | Content _ => false end.
Definition is_content (t : token) : bool := negb (is_heading t).
(** [t.get("text", "")] *)
Definition text_of (t : token) : string := match t with Content x => x | Heading _ _ _ => "" end.

(** [matches.sort(key=lambda x: x[1].start())], a stable sort *)
Fixpoint insert_by_start (m : level * (nat * nat)) (l : list (level * (nat * nat))) :=
  match l with
  | [] => [m]
  | m' :: l' => if fst (snd m) <? fst (snd m') then m :: l else m' :: insert_by_start m l'
  end.
Definition sort_by_start (l : list (level * (nat * nat))) : list (level * (nat * nat)) :=
  fold_left (fun acc m => insert_by_start m acc) l [].

(** Steps 1 and 2: the heading matches of a line, sorted by position. *)
Definition line_matches (dt : doc_type) (line : string) : list (level * (nat * nat)) :=
  sort_by_start
    (if doc_type_eqb dt Play
     then map (pair Act) (finditer Segmenter.SMUSHED_ACT_RE line)
          ++ map (pair Scene) (finditer Segmenter.SMUSHED_SCENE_RE line)
     else map (pair Chapter) (finditer Segmenter.CHAPTER_RE line)).

(** [line_txt[max(0, start-20):min(len(line_txt), end+20)]] *)
Definition window (line : string) (st e : nat) : string :=
  slice line (st - 20) (Nat.min (String.length line) (e + 20)).

(** The noise filter: [has_lowercase and "Scene" not in match_txt and "Scene" not in window]. *)
Definition noise (line : string) (st e : nat) : bool :=
  let match_txt := slice line st e in
  has_lowercase (window line st e) && negb (str_contains "Scene" match_txt)
  && negb (str_contains "Scene" (window line st e)).

(** Step 3: filter the matches and emit the tokens of one line. *)
Fixpoint emit (line : string) (ms : list (level * (nat * nat))) (last_pos : nat) : list token :=
  match ms with
  | [] =>
      let after := strip (slice line last_pos (String.length line)) in
      if (after =? "")%string then [] else [Content after]
  | (lvl, (st, e)) :: ms' =>
      if noise line st e then emit line ms' last_pos
      else
        let before := strip (slice line last_pos st) in
        (if (before =? "")%string then [] else [Content before])
          ++ Heading lvl (slice line st e) false :: emit line ms' e
  end.

Definition tokenise_line (dt : doc_type) (line : string) : list token :=
  emit line (line_matches dt line) 0.

Definition tokenise (blocks : list block) (dt : doc_type) : list token :=
  flat_map (fun b =>
    if btype b =? 0 then
      flat_map (fun spans => let t := line_text spans in
                             if (t =? "")%string then [] else tokenise_line dt t) (blines b)
    else []) blocks.

End Tokenise.
(** ** Hierarchy builders *)
Module Hierarchy.
Import Tokenise.
Local Open Scope list_scope.

(** Content blocks of [_analyse_play_content]. *)
Inductive cblock : Type :=
| Dialogue (character content : string)
| StageDirection (content : string)
| Narrative (content : string).

(** A scene dict [{"id", "title", "blocks"}] and an act dict
    [{"id", "title", "children"}]; the [uuid] ids are not modelled.
    A scene is only appended to its act once it is closed, and an act to
    [acts] once it is closed, so values are enough for the dicts. *)
Record scene : Type := mkScene { scene_title : string; scene_blocks : list cblock }.
Record act : Type := mkAct { act_title : string; act_children : list scene }.

(** [blocks[-1]["content"] += (" " + line if blocks[-1]["content"] else line)]
    when the last block is a dialogue. *)
Definition extend_dialogue (blocks : list cblock) (line : string) : option (list cblock) :=
  match rev blocks with
  | Dialogue ch c :: rest =>
      Some (rev rest ++ [Dialogue ch (if (c =? "")%string then line else String.append c (String.append " " line))])
  | _ => None
  end.

Definition continue_or_narrative (blocks : list cblock) (line : string) : list cblock :=
  match extend_dialogue blocks line with
  | Some b => b
  | None => blocks ++ [Narrative line]
  end.

Definition starts_with (c : ascii) (s : string) : bool :=
  match s with String d _ => Ascii.eqb c d | EmptyString => false end.

Definition analyse_line (blocks : list cblock) (line : string) : list cblock :=
  if 1000 <? String.length line then continue_or_narrative blocks line
  else if rx_match Segmenter.CUE_RE line then blocks ++ [Dialogue line ""]
  else if starts_with "[" line || starts_with "(" line then blocks ++ [StageDirection line]
  else continue_or_narrative blocks line.

(** [StructuralSegmenter._analyse_play_content] *)
Definition analyse_play_content (lines : list string) : list cblock :=
  fold_left analyse_line lines [].

(** *** TOC cluster detection of [_build_play_hierarchy] *)

(** [cluster_indices = [j for j in range(i, min(i + 8, n)) if heading]] *)
Definition cluster_indices (tokens : list token) (i : nat) : list nat :=
  filter (fun j => match nth_error tokens j with Some t => is_heading t | None => false end)
         (seq i (Nat.min (i + 8) (length tokens) - i)).

(** [sum(len(tokens[j].get("text", "")) for j in range(a, b) if content)] *)
Definition content_length (tokens : list token) (a b : nat) : nat :=
  list_sum (map (fun j => match nth_error tokens j with
                          | Some t => if is_content t then String.length (text_of t) else 0
                          | None => 0 end) (seq a (b - a))).

Definition last_nat (l : list nat) (d : nat) : nat := last l d.

(** The indices marked by the window starting at heading [i]. *)
Definition toc_marks_at (tokens : list token) (i : nat) : list nat :=
  match nth_error tokens i with
  | Some t =>
      if is_heading t then
        let cl := cluster_indices tokens i in
        match cl with
        | c0 :: _ =>
            if (4 <=? length cl) && (content_length tokens c0 (last_nat cl c0) <? 200)
            then cl else []
        | [] => []
        end
      else []
  | None => []
  end.

(** [toc_indices] *)
Definition toc_indices (tokens : list token) : list nat :=
  flat_map (toc_marks_at tokens) (seq 0 (length tokens)).

Definition in_toc (toc : list nat) (i : nat) : bool := existsb (Nat.eqb i) toc.

(** *** The play state machine *)

Record pstate : Type := mkP {
  acts : list act;
  cur_act : option act;
  cur_scene : option scene;
  content_buffer : list string;
  first_heading_found : bool }.

Definition pstate0 : pstate := mkP [] None None [] false.

Definition set_act (st : pstate) (a : option act) : pstate :=
  mkP (acts st) a (cur_scene st) (content_buffer st) (first_heading_found st).
Definition set_scene (st : pstate) (s : option scene) : pstate :=
  mkP (acts st) (cur_act st) s (content_buffer st) (first_heading_found st).

(** [flush()] *)
Definition flush (st : pstate) : pstate :=
  match cur_scene st, content_buffer st with
  | Some sc, _ :: _ =>
      mkP (acts st) (cur_act st)
          (Some (mkScene (scene_title sc) (scene_blocks sc ++ analyse_play_content (content_buffer st))))
          [] (first_heading_found st)
  | _, _ => st
  end.

Definition add_child (a : act) (sc : scene) : act := mkAct (act_title a) (act_children a ++ [sc]).

Definition nonempty {A} (l : list A) : bool := match l with [] => false | _ => true end.

Definition is_some {A} (o : option A) : bool := match o with Some _ => true | None => false end.

Definition is_act (l : level) : bool := match l with Act => true | _ => false end.
Definition is_scene (l : level) : bool := match l with Scene => true | _ => false end.

(** The act-repeat filter: [cur_act and t["title"].upper() in cur_act["title"].upper()]. *)
Definition repeats_cur_act (st : pstate) (title : string) : bool :=
  match cur_act st with
  | Some a => str_contains (str_upper title) (str_upper (act_title a))
  | None => false
  end.

(** [next_t["level"]] is evaluated for an act heading whose next token
    exists; a content token has no ["level"] key: [KeyError]. *)
Definition next_is_content (tokens : list token) (i : nat) : bool :=
  match nth_error tokens (S i) with Some (Content _) => true | _ => false end.

(** One iteration of [for i, t in enumerate(tokens)]; [None] is a raised [KeyError]. *)
Definition play_step (toc : list nat) (tokens : list token) (i : nat) (t : token) (st : pstate)
  : option pstate :=
  match t with
  | Heading lvl title _ =>
      if in_toc toc i then Some st
      else if is_act lvl && repeats_cur_act st title then Some st
      else if is_act lvl && next_is_content tokens i then None
      else
        let st := if is_scene lvl && negb (is_some (cur_act st))
                  then set_act st (Some (mkAct "ACT I" [])) else st in
        let st := mkP (acts st) (cur_act st) (cur_scene st) (content_buffer st) true in
        if is_act lvl then
          let st := flush st in
          match cur_act st with
          | Some a =>
              if nonempty (act_children a) || nonempty (content_buffer st) then
                let a := match cur_scene st with Some sc => add_child a sc | None => a end in
                Some (mkP (acts st ++ [a]) (Some (mkAct title [])) None
                          (content_buffer st) (first_heading_found st))
              else Some st
          | None =>
              Some (mkP (acts st) (Some (mkAct title [])) None
                        (content_buffer st) (first_heading_found st))
          end
        else if is_scene lvl then
          let st := flush st in
          let st := match cur_act st, cur_scene st with
                    | Some a, Some sc => set_act st (Some (add_child a sc))
                    | _, _ => st
                    end in
          Some (set_scene st (Some (mkScene title [])))
        else Some st
  | Content text =>
      if negb (first_heading_found st) then Some st
      else match cur_act st with
           | None => Some st
           | Some _ =>
               let sc := match cur_scene st with Some sc => sc | None => mkScene "Scene 1" [] end in
               Some (mkP (acts st) (cur_act st) (Some sc) (content_buffer st ++ [text])
                         (first_heading_found st))
           end
  end.

Fixpoint play_loop (toc : list nat) (tokens : list token) (i : nat) (ts : list token) (st : pstate)
  : option pstate :=
  match ts with
  | [] => Some st
  | t :: ts' =>
      match play_step toc tokens i t st with
      | Some st' => play_loop toc tokens (S i) ts' st'
      | None => None
      end
  end.

(** [_fallback_single_unit] *)
Definition fallback_single_unit (tokens : list token) : list act :=
  [mkAct "The Play" [mkScene "Content" (analyse_play_content (map text_of (filter is_content tokens)))]].

(** The closing lines of [_build_play_hierarchy]. *)
Definition play_finish (tokens : list token) (st : pstate) : list act :=
  let st := flush st in
  let acts := match cur_act st, cur_scene st with
              | Some a, Some sc => acts st ++ [add_child a sc]
              | Some a, None => acts st ++ [a]
              | None, _ => acts st
              end in
  match acts with [] => fallback_single_unit tokens | _ => acts end.

(** [StructuralSegmenter._build_play_hierarchy]; [None] is a [KeyError]. *)
Definition build_play_hierarchy (tokens : list token) : option (list act) :=
  match play_loop (toc_indices tokens) tokens 0 tokens pstate0 with
  | Some st => Some (play_finish tokens st)
  | None => None
  end.

(** *** The novel accumulator *)

(** A section dict [{"id", "title": "", "paragraphs", "content"}] and a
    chapter dict [{"id", "title", "children": [section]}]. *)
Record section : Type := mkSection { sec_title : string; paragraphs : list string }.
Record chapter : Type := mkChapter { ch_title : string; ch_children : list section }.

(** [s["content"] = "\n\n".join(s["paragraphs"])] *)
Definition section_content (s : section) : string :=
  String.concat (String "010" (String "010" EmptyString)) (paragraphs s).

(** [(chapters, cur_chapter title, cur_chapter section paragraphs)] *)
Definition nstate : Type := (list chapter * string * list string)%type.

Definition close_chapter (title : string) (paras : list string) : chapter :=
  mkChapter title [mkSection "" paras].

Definition novel_step (st : nstate) (t : token) : nstate :=
  let '(chs, title, paras) := st in
  match t with
  | Heading Chapter title' _ =>
      match paras with
      | [] => (chs, title', [])
      | _ => (chs ++ [close_chapter title paras], title', [])
      end
  | Heading _ _ _ => st
  | Content text => (chs, title, paras ++ [text])
  end.

(** [StructuralSegmenter._build_novel_hierarchy] *)
Definition build_novel_hierarchy (tokens : list token) : list chapter :=
  let '(chs, title, paras) := fold_left novel_step tokens ([], "Beginning", []) in
  match paras with
  | [] => chs
  | _ => chs ++ [close_chapter title paras]
  end.

End Hierarchy.

(** ** ContentClassifier.classify *)
Module Classify.
Local Open Scope list_scope.
Local Open Scope Q_scope.

(** The [signals] dict: one key per weight of [_WEIGHTS], in its order. *)
Definition signal_keys : list string :=
  ["act_heading"; "scene_heading"; "character_cue"; "stage_direction"; "cast_page"; "stage_verb";
   "chapter_heading"; "first_person"; "said_tag"; "prose_sentence"].

Definition signals := list (string * nat).

Definition signals0 : signals := map (fun k => (k, 0%nat)) signal_keys.

(** [signals[k]] *)
Fixpoint sig_get (k : string) (s : signals) : nat :=
  match s with
  | [] => 0%nat
  | (k', v) :: s' => if (k =? k')%string then v else sig_get k s'
  end.

(** [signals[k] += n] *)
Definition sig_add (k : string) (n : nat) (s : signals) : signals :=
  map (fun kv => if (k =? fst kv)%string then (fst kv, (snd kv + n)%nat) else kv) s.

(** [_WEIGHTS] *)
Definition w_act_heading : Q := 8.
Definition w_scene_heading : Q := 8.
Definition w_character_cue : Q := 2.
Definition w_stage_direction : Q := 3.
Definition w_cast_page : Q := 10.
Definition w_chapter_heading : Q := 6.
Definition w_first_person : Q := 3 # 10.
Definition w_said_tag : Q := 1 # 2.
Definition w_prose_sentence : Q := 1 # 10.

(** [idx < line_count * 0.1] with Python's float product: [0.1] is the
    double [3602879701896397 * 2^-55] and the product is rounded to 53
    significant bits, ties to even. *)
Definition is_intro (idx line_count : nat) : bool :=
  let m := (Z.of_nat line_count * 3602879701896397)%Z in
  if (m =? 0)%Z then false else
  let b := (Z.log2 m + 1)%Z in
  let sh := Z.max 0 (b - 53) in
  let q := Z.shiftr m sh in
  let r := (m - Z.shiftl q sh)%Z in
  let q' := if (sh =? 0)%Z then q
            else let half := Z.shiftl 1 (sh - 1) in
                 if (half <? r)%Z || ((r =? half)%Z && Z.odd q) then (q + 1)%Z else q in
  (Z.shiftl (Z.of_nat idx) 55 <? Z.shiftl q' sh)%Z.

Record acc : Type := mkAcc { play_score : Q; novel_score : Q; sigs : signals }.

Definition add_play (w : Q) (k : string) (a : acc) : acc :=
  mkAcc (play_score a + w) (novel_score a) (sig_add k 1 (sigs a)).
Definition add_novel (w : Q) (k : string) (n : nat) (a : acc) : acc :=
  mkAcc (play_score a) (novel_score a + w) (sig_add k n (sigs a)).

(** [if b: <update a>] *)
Definition when (b : bool) (f : acc -> acc) (a : acc) : acc := if b then f a else a.

(** The body of [for idx, text in enumerate(lines)]. *)
Definition line_step (line_count : nat) (a : acc) (it : nat * string) : acc :=
  let '(idx, text) := it in
  let t := strip text in
  if (t =? "")%string then a else
  let p_mult : Q := if is_intro idx line_count then 1 # 5 else 1 in
  let a := when (rx_search Classifier.ACT_RE t) (add_play w_act_heading "act_heading") a in
  let a := when (rx_search Classifier.SCENE_RE t) (add_play w_scene_heading "scene_heading") a in
  let a := when (rx_match Classifier.CUE_RE t && (split_len t <=? 5)%nat)
                (add_play w_character_cue "character_cue") a in
  let a := when (rx_search Classifier.STAGE_RE t || rx_search Classifier.STAGE_VERB t)
                (add_play w_stage_direction "stage_direction") a in
  let a := when (rx_search Classifier.CAST_RE t) (add_play w_cast_page "cast_page") a in
  let a := when (rx_search Classifier.CHAPTER_RE t)
                (add_novel w_chapter_heading "chapter_heading" 1) a in
  let fp := findall_count Classifier.FIRST_PERS t in
  let a := when (negb (fp =? 0)%nat)
                (add_novel (inject_Z (Z.of_nat fp) * w_first_person * p_mult) "first_person" fp) a in
  let a := when (rx_search Classifier.SAID_RE t) (add_novel (w_said_tag * p_mult) "said_tag" 1) a in
  let a := when (rx_search Classifier.PROSE_RE t)
                (add_novel (w_prose_sentence * p_mult) "prose_sentence" 1) a in
  a.

Fixpoint enumerate_from {A} (i : nat) (l : list A) : list (nat * A) :=
  match l with [] => [] | x :: l' => (i, x) :: enumerate_from (S i) l' end.

(** [dict.get(k, 0.0)] on [ml_probs] *)
Fixpoint prob_get (k : string) (d : list (string * Q)) : Q :=
  match d with
  | [] => 0
  | (k', v) :: d' => if (k =? k')%string then v else prob_get k d'
  end.

(** The pretrained model: [None] when no model was loaded; otherwise the
    function from [full_text] to [dict(zip(classes_, probs))], [None] when
    [transform]/[predict_proba] raises (the [except: pass]). *)
Definition ml_model := option (string -> option (list (string * Q))).

(** [x < y] on scores *)
Definition Qlt_bool (x y : Q) : bool := negb (Qle_bool y x).

(** Python's [max(a, b)]: [b] only when [b > a]. *)
Definition py_max (a b : Q) : Q := if Qlt_bool a b then b else a.

(** [round(x, 3)]: ties to even. *)
Definition round3 (x : Q) : Q :=
  let y := x * 1000 in
  let f := Qfloor y in
  let r := y - inject_Z f in
  let n := if Qlt_bool r (1 # 2) then f
           else if Qlt_bool (1 # 2) r then (f + 1)%Z
           else if Z.even f then f else (f + 1)%Z in
  inject_Z n / 1000.

Record result : Type := mkResult {
  rtype : doc_type; confidence : Q; r_play_score : Q; r_novel_score : Q;
  ml_probabilities : list (string * Q); signals_of : signals }.

Definition MIN_EVIDENCE : Q := 2.

(** [(signals["act_heading"] >= 1 and signals["scene_heading"] >= 1) or signals["act_heading"] >= 3] *)
Definition override (signals : signals) : bool :=
  ((1 <=? sig_get "act_heading" signals) && (1 <=? sig_get "scene_heading" signals))%nat
  || (3 <=? sig_get "act_heading" signals)%nat.

(** [ContentClassifier.classify] *)
Definition classify (model : ml_model) (blocks : list block) : result :=
  let lines := extract_lines blocks in
  let full_text := String.concat " " lines in
  let line_count := length lines in
  let a := fold_left (line_step line_count) (enumerate_from 0 lines) (mkAcc 0 0 signals0) in
  let '(ml_probs, play, novel) :=
    match model with
    | Some f =>
        if (full_text =? "")%string then ([("play", 0); ("novel", 0)], play_score a, novel_score a)
        else match f full_text with
             | Some probs => (probs, play_score a + prob_get "play" probs * 10,
                                     novel_score a + prob_get "novel" probs * 10)
             | None => ([("play", 0); ("novel", 0)], play_score a, novel_score a)
             end
    | None => ([("play", 0); ("novel", 0)], play_score a, novel_score a)
    end in
  let signals := sigs a in
  if override signals then mkResult Play (95 # 100) play novel ml_probs signals
  else
    let total := play + novel in
    if Qlt_bool total MIN_EVIDENCE then mkResult Generic (1 # 2) play novel ml_probs signals
    else
      let dt := if Qlt_bool novel play then Play else Novel in
      let conf := round3 (py_max play novel / total) in
      mkResult dt conf play novel ml_probs signals.

End Classify.

(** ** [ContentClassifier.classify] over binary64 doubles

    The loop of [Classify] with [play_score] and [novel_score] kept as the
    IEEE 754 doubles Python computes: each [+] and [*] rounds to the
    nearest double, ties to even ([PrimFloat]'s operations, specified by
    [SF64add], [SF64mul] and [SF64div]).  The signal counts, the
    [is_intro] test and the override are those of [Classify]. *)
Module ClassifyF64.
Import Floats.
(* Decimal literals denote the nearest double, as in Python. *)
Local Set Warnings "-inexact-float".
Local Open Scope list_scope.
Local Open Scope float_scope.

(** [_WEIGHTS] *)
Definition w_act_heading : float := 8.0.
Definition w_scene_heading : float := 8.0.
Definition w_character_cue : float := 2.0.
Definition w_stage_direction : float := 3.0.
Definition w_cast_page : float := 10.0.
Definition w_chapter_heading : float := 6.0.
Definition w_first_person : float := 0.3.
Definition w_said_tag : float := 0.5.
Definition w_prose_sentence : float := 0.1.

(** [float(fp)], the conversion of the int in [fp * 0.3]: the nearest
    double, ties to even. *)
Definition float_of_nat (n : nat) : float :=
  SF2Prim (binary_normalize prec emax (Z.of_nat n) 0 false).

Record acc : Type := mkAcc { play_score : float; novel_score : float; sigs : Classify.signals }.

Definition add_play (w : float) (k : string) (a : acc) : acc :=
  mkAcc (play_score a + w) (novel_score a) (Classify.sig_add k 1 (sigs a)).
Definition add_novel (w : float) (k : string) (n : nat) (a : acc) : acc :=
  mkAcc (play_score a) (novel_score a + w) (Classify.sig_add k n (sigs a)).

(** [if b: <update a>] *)
Definition when (b : bool) (f : acc -> acc) (a : acc) : acc := if b then f a else a.

(** The body of [for idx, text in enumerate(lines)]. *)
Definition line_step (line_count : nat) (a : acc) (it : nat * string) : acc :=
  let '(idx, text) := it in
  let t := strip text in
  if (t =? "")%string then a else
  let p_mult : float := if Classify.is_intro idx line_count then 0.2 else 1.0 in
  let a := when (rx_search Classifier.ACT_RE t) (add_play w_act_heading "act_heading") a in
  let a := when (rx_search Classifier.SCENE_RE t) (add_play w_scene_heading "scene_heading") a in
  let a := when (rx_match Classifier.CUE_RE t && (split_len t <=? 5)%nat)
                (add_play w_character_cue "character_cue") a in
  let a := when (rx_search Classifier.STAGE_RE t || rx_search Classifier.STAGE_VERB t)
                (add_play w_stage_direction "stage_direction") a in
  let a := when (rx_search Classifier.CAST_RE t) (add_play w_cast_page "cast_page") a in
  let a := when (rx_search Classifier.CHAPTER_RE t)
                (add_novel w_chapter_heading "chapter_heading" 1) a in
  let fp := findall_count Classifier.FIRST_PERS t in
  let a := when (negb (fp =? 0)%nat)
                (add_novel (float_of_nat fp * w_first_person * p_mult) "first_person" fp) a in
  let a := when (rx_search Classifier.SAID_RE t) (add_novel (w_said_tag * p_mult) "said_tag" 1) a in
  let a := when (rx_search Classifier.PROSE_RE t)
                (add_novel (w_prose_sentence * p_mult) "prose_sentence" 1) a in
  a.

(** [dict.get(k, 0.0)] on [ml_probs] *)
Fixpoint prob_get (k : string) (d : list (string * float)) : float :=
  match d with
  | [] => 0.0
  | (k', v) :: d' => if (k =? k')%string then v else prob_get k d'
  end.

(** The pretrained model, as in [Classify.ml_model], answering doubles. *)
Definition ml_model := option (string -> option (list (string * float))).

(** Python's [max(a, b)]: [b] only when [b > a]. *)
Definition py_max (a b : float) : float := if a <? b then b else a.

(** The exact value [(-1)^s * m * 2^e] of a finite double. *)
Definition exact_value (s : bool) (m : positive) (e : Z) : Q :=
  let v := match e with
           | Z0 => Qmake (Zpos m) 1
           | Zpos p => Qmake (Zpos m * Zpos (Pos.pow 2 p)) 1
           | Zneg p => Qmake (Zpos m) (Pos.pow 2 p)
           end in
  if s then Qopp v else v.

(** The double nearest to [q], ties to even (the quotient [Qnum q / Qden q]
    rounded once by [SF64div]); a zero keeps the sign [s] of the rounded
    double. *)
Definition nearest (s : bool) (q : Q) : float :=
  match Qnum q with
  | Z0 => SF2Prim (S754_zero s)
  | Zpos n => SF2Prim (SF64div (S754_finite false n 0) (S754_finite false (Qden q) 0))
  | Zneg n => SF2Prim (SF64div (S754_finite true n 0) (S754_finite false (Qden q) 0))
  end.

(** [round(x, 3)] on a double: its exact value rounded to three decimals,
    ties to even ([Classify.round3]), then the nearest double; zeros,
    infinities and NaN are returned unchanged. *)
Definition round3 (x : float) : float :=
  match Prim2SF x with
  | S754_finite s m e => nearest s (Classify.round3 (exact_value s m e))
  | _ => x
  end.

Record result : Type := mkResult {
  rtype : doc_type; confidence : float; r_play_score : float; r_novel_score : float;
  ml_probabilities : list (string * float); signals_of : Classify.signals }.

Definition MIN_EVIDENCE : float := 2.0.

(** [ContentClassifier.classify] *)
Definition classify (model : ml_model) (blocks : list block) : result :=
  let lines := extract_lines blocks in
  let full_text := String.concat " " lines in
  let line_count := length lines in
  let a := fold_left (line_step line_count) (Classify.enumerate_from 0 lines)
                     (mkAcc 0.0 0.0 Classify.signals0) in
  let '(ml_probs, play, novel) :=
    match model with
    | Some f =>
        if (full_text =? "")%string then ([("play", 0.0); ("novel", 0.0)], play_score a, novel_score a)
        else match f full_text with
             | Some probs => (probs, play_score a + prob_get "play" probs * 10.0,
                                     novel_score a + prob_get "novel" probs * 10.0)
             | None => ([("play", 0.0); ("novel", 0.0)], play_score a, novel_score a)
             end
    | None => ([("play", 0.0); ("novel", 0.0)], play_score a, novel_score a)
    end in
  let signals := sigs a in
  if Classify.override signals then mkResult Play 0.95 play novel ml_probs signals
  else
    let total := play + novel in
    if total <? MIN_EVIDENCE then mkResult Generic 0.5 play novel ml_probs signals
    else
      let dt := if novel <? play then Play else Novel in
      let conf := round3 (py_max play novel / total) in
      mkResult dt conf play novel ml_probs signals.

End ClassifyF64.

(** ** Checks of the binary64 model against Python *)
Module ChecksF64.
Import Floats ClassifyF64.
Local Set Warnings "-inexact-float".
Local Open Scope float_scope.

(** The literal [0.1] is the double [7205759403792794 * 2^-56] (the
    [3602879701896397 * 2^-55] of [Classify.is_intro]). *)
Example literal_tenth : Prim2SF 0.1 = S754_finite false 7205759403792794 (-56).
Proof. vm_compute. reflexivity. Qed.

(** [round(0.1234567, 3)], [round(2.0005, 3)], [round(2/3, 3)],
    [round(0.6665, 3)] and [round(-0.0001, 3)] in Python. *)
Example round3_python :
  round3 0.1234567 = 0.123 /\ round3 2.0005 = 2.001 /\ round3 (2.0 / 3.0) = 0.667 /\
  round3 0.6665 = 0.666 /\ Prim2SF (round3 (-0.0001)) = S754_zero true.
Proof. vm_compute. repeat split; reflexivity. Qed.

(** A cue, two prose lines and two lines with three [I]s each: Python's
    [novel_score] is [1.9999999999999998], below [play_score = 2.0], and
    [classify] answers [play] with confidence [0.5]. *)
Definition near_tie_blocks : list block :=
  [mkBlock 0 [["HAMLET."];
              ["the quick brown fox jumps over the lazy dog and keeps running far away."];
              ["the quick brown fox jumps over the lazy dog and keeps running far away."];
              ["I know I can I think"]; ["I know I can I think"]]].

Example near_tie_play :
  let r := classify None near_tie_blocks in
  rtype r = Play /\ r_play_score r = 2.0 /\ r_novel_score r = 1.9999999999999998 /\
  confidence r = 0.5.
Proof. vm_compute. repeat split; reflexivity. Qed.

End ChecksF64.

(** ** Lemmas on binary64 arithmetic *)
Module F64Facts.
Import Floats.
Local Open Scope Z_scope.

Lemma Prim2SF_inj (a b : float) : Prim2SF a = Prim2SF b -> a = b.
Proof. intro H. rewrite <- (SF2Prim_Prim2SF a), H. apply SF2Prim_Prim2SF. Qed.

Lemma SFltb_refl x : SFltb x x = false.
Proof.
  destruct x as [[]|[]| |[] m e]; unfold SFltb, SFcompare; try reflexivity;
    rewrite Z.compare_refl, Pos.compare_cont_refl; reflexivity.
Qed.

Lemma ltb_irrefl (x : float) : (x <? x)%float = false.
Proof. rewrite ltb_spec. apply SFltb_refl. Qed.

(** [x == y] holds of equal doubles and of two zeros. *)
Lemma SFeqb_cases x y : SFeqb x y = true ->
  x = y \/ (exists s1 s2, x = S754_zero s1 /\ y = S754_zero s2).
Proof.
  destruct x as [s1|s1| |s1 m1 e1], y as [s2|s2| |s2 m2 e2]; unfold SFeqb, SFcompare;
    intro H; try discriminate; [right; eauto| ..];
    destruct s1, s2; try discriminate; auto;
    destruct (Z.compare_spec e1 e2); try discriminate; subst;
    change (Pos.compare_cont Eq m1 m2) with (Pos.compare m1 m2) in H;
    destruct (Pos.compare_spec m1 m2); try discriminate; subst; auto.
Qed.

Lemma leb_ltb_false (x y : float) : (x <=? y)%float = true -> (y <? x)%float = false.
Proof.
  rewrite leb_spec, ltb_spec.
  destruct (Prim2SF x) as [[]|[]| |[] m1 e1], (Prim2SF y) as [[]|[]| |[] m2 e2];
    unfold SFleb, SFltb, SFcompare; try reflexivity; try discriminate;
    rewrite (Z.compare_antisym e1 e2);
    change (Pos.compare_cont Eq m2 m1) with (Pos.compare m2 m1);
    change (Pos.compare_cont Eq m1 m2) with (Pos.compare m1 m2);
    rewrite (Pos.compare_antisym m1 m2).
  all: destruct (Z.compare e1 e2), (Pos.compare m1 m2); simpl; congruence.
Qed.

(** [x + x] of a finite double is exact, or overflows. *)
Lemma SFadd_same s m e :
  valid_binary (S754_finite s m e) = true ->
  SF64add (S754_finite s m e) (S754_finite s m e) = S754_finite s m (e + 1) \/
  SF64add (S754_finite s m e) (S754_finite s m e) = S754_finite s (xO m) e \/
  SF64add (S754_finite s m e) (S754_finite s m e) = S754_infinity s.
Proof.
  unfold valid_binary, bounded, canonical_mantissa.
  intro H; apply andb_prop in H; destruct H as [H1 H2].
  apply Z.eqb_eq in H1; apply Z.leb_le in H2.
  unfold SF64add, SFadd. rewrite Z.min_id. unfold shl_align. rewrite Z.sub_diag. simpl fst.
  assert (Hs : Z.add (cond_Zopp s (Zpos m)) (cond_Zopp s (Zpos m)) = cond_Zopp s (Zpos (xO m))).
  { destruct s; simpl; rewrite Pos.add_diag; reflexivity. }
  rewrite Hs; clear Hs.
  set (D := Zpos (digits2_pos m)) in *.
  assert (HD : Zpos (digits2_pos (xO m)) = D + 1) by (simpl; rewrite Pos2Z.inj_succ; reflexivity).
  unfold fexp, emin, prec, emax in *.
  change (Z.sub (Z.sub 3 1024) 53) with (-1074) in *.
  change (Z.sub 1024 53) with 971 in H2.
  assert (Hn : forall b, binary_normalize 53 1024 (cond_Zopp b (Zpos (xO m))) e false
                         = binary_round 53 1024 b (xO m) e)
    by (destruct b; reflexivity).
  rewrite Hn; clear Hn.
  unfold binary_round, binary_round_aux, shr_fexp, shl_align, fexp, emin.
  change (Z.sub (Z.sub 3 1024) 53) with (-1074).
  change (Z.sub 1024 53) with 971.
  change (Zdigits2 (Zpos (xO m))) with (Zpos (digits2_pos (xO m))).
  rewrite HD.
  destruct (Z.le_gt_cases (-1074) (D + e - 53)) as [HA|HA].
  - (* normal: one bit shifted out, the exponent goes up *)
    replace (Z.max (D + 1 + e - 53) (-1074) - e) with 1 by lia.
    cbv beta iota zeta delta [shr shr_1 iter_pos shr_record_of_loc loc_of_shr_record
                              round_nearest_even shr_m Zdigits2 orb].
    rewrite HD.
    replace (Z.max (D + 1 + e - 53) (-1074) - e) with 1 by lia.
    cbv beta iota zeta delta [shr shr_1 iter_pos shr_record_of_loc loc_of_shr_record
                              round_nearest_even shr_m Zdigits2 orb].
    fold D.
    replace (Z.max (D + (e + 1) - 53) (-1074) - (e + 1)) with 0 by lia.
    cbv beta iota zeta delta [shr shr_m].
    destruct (e + 1 <=? 971); auto.
  - (* subnormal: the mantissa doubles at the least exponent *)
    replace (Z.max (D + 1 + e - 53) (-1074) - e) with 0 by lia.
    cbv beta iota zeta delta [shr shr_1 iter_pos shr_record_of_loc loc_of_shr_record
                              round_nearest_even shr_m Zdigits2 orb].
    rewrite HD.
    replace (Z.max (D + 1 + e - 53) (-1074) - e) with 0 by lia.
    cbv beta iota zeta delta [shr shr_m].
    rewrite HD.
    replace (Z.max (D + 1 + e - 53) (-1074) - e) with 0 by lia.
    cbv beta iota zeta delta [shr shr_m].
    replace (e <=? 971) with true by (symmetry; apply Z.leb_le; lia).
    auto.
Qed.

Lemma div_eucl_mul_l (a b : Z) : 0 < a -> Z.div_eucl (a * b) a = (b, 0).
Proof.
  intro Ha.
  assert (E : Z.div_eucl (a * b) a = (Z.div (a * b) a, Z.modulo (a * b) a))
    by (unfold Z.div, Z.modulo; destruct (Z.div_eucl (a * b) a); reflexivity).
  rewrite E, Z.mul_comm, Z.div_mul, Z.mod_mul by lia. reflexivity.
Qed.

Lemma new_location_zero (n : Z) : new_location n 0 = loc_Exact.
Proof. unfold new_location; destruct (Z.even n); reflexivity. Qed.

Definition half_sf : spec_float := Eval vm_compute in Prim2SF 0.5.

Lemma SFdiv_half_1 s m e :
  SF64div (S754_finite s m e) (S754_finite s m (e + 1)) = half_sf.
Proof.
  unfold SF64div, SFdiv, SFdiv_core_binary, fexp, emin, prec, emax.
  rewrite Bool.xorb_nilpotent.
  change (Zdigits2 (Zpos m)) with (Zpos (digits2_pos m)).
  set (D := Zpos (digits2_pos m)).
  replace (Z.min (Z.max (D + e - (D + (e + 1)) - 53) (3 - 1024 - 53)) (e - (e + 1)))
    with (-54) by lia.
  replace (e - (e + 1) - -54) with 53 by lia.
  cbv beta iota zeta.
  rewrite Z.shiftl_mul_pow2 by lia.
  rewrite div_eucl_mul_l by lia.
  cbv beta iota zeta.
  rewrite new_location_zero.
  vm_compute. reflexivity.
Qed.

Lemma SFdiv_half_2 s m e :
  SF64div (S754_finite s m e) (S754_finite s (xO m) e) = half_sf.
Proof.
  unfold SF64div, SFdiv, SFdiv_core_binary, fexp, emin, prec, emax.
  rewrite Bool.xorb_nilpotent.
  change (Zdigits2 (Zpos (xO m))) with (Zpos (Pos.succ (digits2_pos m))).
  change (Zdigits2 (Zpos m)) with (Zpos (digits2_pos m)).
  rewrite Pos2Z.inj_succ.
  set (D := Zpos (digits2_pos m)).
  replace (Z.min (Z.max (D + e - (Z.succ D + e) - 53) (3 - 1024 - 53)) (e - e))
    with (-54) by lia.
  replace (e - e - -54) with 54 by lia.
  cbv beta iota zeta.
  rewrite Z.shiftl_mul_pow2 by lia.
  replace (Zpos m * 2 ^ 54) with (Zpos (xO m) * 2 ^ 53) by (rewrite Pos2Z.inj_xO; ring).
  rewrite div_eucl_mul_l by lia.
  cbv beta iota zeta.
  rewrite new_location_zero.
  vm_compute. reflexivity.
Qed.

(** [p / (p + p)] is [0.5] when [p + p] is at least [2.0] and finite. *)
Lemma half_of_double (p : float) :
  (2.0 <=? p + p)%float = true -> is_finite (p + p)%float = true -> (p / (p + p))%float = 0.5%float.
Proof.
  intros H1 H2. apply Prim2SF_inj.
  unfold is_finite, is_nan, is_infinity in H2.
  rewrite leb_spec, add_spec in H1.
  rewrite !eqb_spec, abs_spec, add_spec in H2.
  rewrite div_spec, add_spec.
  pose proof (Prim2SF_valid p) as Hv.
  change (Prim2SF 0.5) with half_sf.
  destruct (Prim2SF p) as [s|s| |s m e].
  - destruct s; vm_compute in H1; discriminate.
  - destruct s; vm_compute in H2; discriminate.
  - vm_compute in H1; discriminate.
  - destruct (SFadd_same s m e Hv) as [E|[E|E]]; rewrite E in *.
    + apply SFdiv_half_1.
    + apply SFdiv_half_2.
    + destruct s; vm_compute in H2; discriminate.
Qed.

(** Two doubles with [p == q] and [p + q >= 2.0] are the same double. *)
Lemma eqb_tie (p q : float) :
  (2.0 <=? p + q)%float = true -> (p =? q)%float = true -> p = q.
Proof.
  intros Ht Heq. rewrite eqb_spec in Heq.
  destruct (SFeqb_cases _ _ Heq) as [E|[s1 [s2 [E1 E2]]]].
  - apply Prim2SF_inj, E.
  - rewrite leb_spec, add_spec, E1, E2 in Ht. destruct s1, s2; vm_compute in Ht; discriminate.
Qed.

Lemma round3_half : ClassifyF64.round3 0.5%float = 0.5%float.
Proof. vm_compute. reflexivity. Qed.

End F64Facts.

(** ** The dicts returned by [StructuralSegmenter.segment] *)
Module PyView.
Import Tokenise Hierarchy.
Local Open Scope list_scope.

Local Set Warnings "-register-all".

Inductive pyval : Type :=
| PStr (s : string)
| PList (l : list pyval)
| PDict (d : list (string * pyval)).

(** [str(uuid.uuid4())[:8]]: random, never compared; a fixed stand-in. *)
Definition uid : pyval := PStr "uid".

Definition cblock_to_py (b : cblock) : pyval :=
  match b with
  | Dialogue ch c => PDict [("type", PStr "dialogue"); ("character", PStr ch); ("content", PStr c)]
  | StageDirection c => PDict [("type", PStr "stage_direction"); ("content", PStr c)]
  | Narrative c => PDict [("type", PStr "narrative"); ("content", PStr c)]
  end.

(** [{"id": _uid(), "title": ..., "blocks": [...]}] *)
Definition scene_to_py (s : scene) : pyval :=
  PDict [("id", uid); ("title", PStr (scene_title s)); ("blocks", PList (map cblock_to_py (scene_blocks s)))].

(** [{"id": _uid(), "title": ..., "children": [...]}] *)
Definition act_to_py (a : act) : pyval :=
  PDict [("id", uid); ("title", PStr (act_title a)); ("children", PList (map scene_to_py (act_children a)))].

(** [{"id", "title", "paragraphs", "content"}] after the final rollup loop *)
Definition section_to_py (s : section) : pyval :=
  PDict [("id", uid); ("title", PStr (sec_title s));
         ("paragraphs", PList (map PStr (paragraphs s))); ("content", PStr (section_content s))].

Definition chapter_to_py (c : chapter) : pyval :=
  PDict [("id", uid); ("title", PStr (ch_title c)); ("children", PList (map section_to_py (ch_children c)))].

(** [d[k]]; [None] is a [KeyError] (or a non-dict). *)
Fixpoint assoc_get (k : string) (d : list (string * pyval)) : option pyval :=
  match d with
  | [] => None
  | (k', v) :: d' => if (k =? k')%string then Some v else assoc_get k d'
  end.

Definition py_get (k : string) (v : pyval) : option pyval :=
  match v with PDict d => assoc_get k d | _ => None end.

(** [StructuralSegmenter.segment]; [None] is the [KeyError] of the play builder. *)
Definition segment (blocks : list block) (dt : doc_type) : option (list pyval) :=
  let tokens := tokenise blocks dt in
  if doc_type_eqb dt Play
  then option_map (map act_to_py) (build_play_hierarchy tokens)
  else Some (map chapter_to_py (build_novel_hierarchy tokens)).

End PyView.

(** ** StructuralSegmenter._search_heading *)
Module SearchHeading.

(** [^\bACT\s+([IVX]+|\d+)\b\.?$], IGNORECASE *)
Definition ACT_RE : rx :=
  seqs [RBol; RWordB; ilit "ACT"; plus sp;
        RAlt (plus (RChar (icls (in_chars "IVX")))) (plus dg); RWordB; opt (lit "."); REol].
(** [^\bSCENE\s+([IVX]+|\d+)\b\.?$], IGNORECASE *)
Definition SCENE_RE : rx :=
  seqs [RBol; RWordB; ilit "SCENE"; plus sp;
        RAlt (plus (RChar (icls (in_chars "IVX")))) (plus dg); RWordB; opt (lit "."); REol].

(** The kind string and the span of the [re.Match] (or [None]). *)
Definition found (kind : string) (m : option (nat * nat)) : string * option (nat * nat) :=
  match m with Some sp => (kind, Some sp) | None => ("none", None) end.

(** [StructuralSegmenter._search_heading]; [r.match(s)] is the span [(0, e)]. *)
Definition search_heading (text : string) (dt : doc_type) : string * option (nat * nat) :=
  if String.length text <? 3 then ("none", None) else
  let search_text := substring 0 128 text in
  if doc_type_eqb dt Play then
    match rx_match_at ACT_RE search_text 0 with
    | Some e => ("act", Some (0, e))
    | None =>
    match rx_match_at SCENE_RE search_text 0 with
    | Some e => ("scene", Some (0, e))
    | None =>
      if has_lowercase search_text && negb (str_contains "Scene" search_text) then ("none", None)
      else
      match search_from Segmenter.SMUSHED_ACT_RE search_text 0 (String.length search_text) with
      | Some sp => ("act", Some sp)
      | None => found "scene"
                  (search_from Segmenter.SMUSHED_SCENE_RE search_text 0 (String.length search_text))
      end
    end
    end
  else
    match rx_match_at Segmenter.CHAPTER_RE search_text 0 with
    | Some e => ("chapter", Some (0, e))
    | None => ("none", None)
    end.

End SearchHeading.

(** ** The callers in analyzer.py: [LiteratureAnalyzer] *)
Module Analyzer.
Import Tokenise Hierarchy PyView.
Local Open Scope list_scope.

(** [None] below is a raised exception ([KeyError], [AttributeError],
    [TypeError]), or a value outside the str/list/dict shapes the code
    formats: an f-string or [str.join] is modelled on strings only. *)
Local Notation "x <- a ;; b" := (match a with Some x => b | None => None end)
  (at level 61, a at next level, right associativity).

Fixpoint map_opt {A B} (f : A -> option B) (l : list A) : option (list B) :=
  match l with
  | [] => Some []
  | x :: l' => y <- f x ;; ys <- map_opt f l' ;; Some (y :: ys)
  end.

Definition py_str (v : pyval) : option string := match v with PStr s => Some s | _ => None end.
Definition py_list (v : pyval) : option (list pyval) := match v with PList l => Some l | _ => None end.

(** [v.get(k)]: [Some None] when the key is absent. *)
Definition py_get_opt (k : string) (v : pyval) : option (option pyval) :=
  match v with PDict d => Some (assoc_get k d) | _ => None end.

(** [v.get(k, d)] *)
Definition py_get_or (k : string) (d : pyval) (v : pyval) : option pyval :=
  match v with PDict kv => Some (match assoc_get k kv with Some x => x | None => d end) | _ => None end.

(** Python truthiness of a value, and of [None]. *)
Definition py_truthy (v : pyval) : bool :=
  match v with PStr s => negb (s =? "")%string | PList l => nonempty l | PDict d => nonempty d end.
Definition py_truthy_opt (o : option pyval) : bool :=
  match o with Some v => py_truthy v | None => false end.

(** [v == s] for a string [s] *)
Definition py_eq_str (v : pyval) (s : string) : bool :=
  match v with PStr s' => (s' =? s)%string | _ => false end.

Definition nl2 : string := String "010" (String "010" EmptyString).
Definition nl1 : string := String "010" EmptyString.

(** One entry of [full_content] in [_flatten_units]. *)
Definition flat_block_line (b : pyval) : option string :=
  t <- py_get "type" b ;;
  if py_eq_str t "dialogue" then
    c <- py_get "character" b ;; cs <- py_str c ;;
    x <- py_get "content" b ;; xs <- py_str x ;;
    Some (cs ++ ": " ++ xs)%string
  else if py_eq_str t "stage_direction" then
    x <- py_get "content" b ;; xs <- py_str x ;; Some ("[" ++ xs ++ "]")%string
  else x <- py_get "content" b ;; py_str x.

(** The flat unit of one scene of [act] (play branch). *)
Definition flat_scene (act scene : pyval) : option pyval :=
  bv <- py_get_or "blocks" (PList []) scene ;; bl <- py_list bv ;;
  lines <- map_opt flat_block_line bl ;;
  stv <- py_get_or "title" (PStr "Scene") scene ;;
  inf <- py_get_opt "inferred" scene ;;
  title <- (if negb (py_truthy_opt inf)
            then atv <- py_get "title" act ;; ats <- py_str atv ;; sts <- py_str stv ;;
                 Some (PStr (ats ++ " - " ++ sts)%string)
            else py_get "title" act) ;;
  Some (PDict [("title", title); ("content", PStr (String.concat nl2 lines)); ("blocks", bv)]).

Definition flat_act (act : pyval) : option (list pyval) :=
  cv <- py_get_or "children" (PList []) act ;; scenes <- py_list cv ;;
  map_opt (flat_scene act) scenes.

(** The flat unit of one section of [chapter] (novel branch). *)
Definition flat_section (chapter section : pyval) : option pyval :=
  stitle <- py_get_opt "title" section ;;
  title <- (if py_truthy_opt stitle
            then ct <- py_get "title" chapter ;; cts <- py_str ct ;;
                 st <- py_get "title" section ;; sts <- py_str st ;;
                 Some (PStr (cts ++ " - " ++ sts)%string)
            else py_get "title" chapter) ;;
  c <- py_get_or "content" (PStr "") section ;;
  content <- (if py_truthy c then Some c
              else pv <- py_get_or "paragraphs" (PList []) section ;; pl <- py_list pv ;;
                   ps <- map_opt py_str pl ;; Some (PStr (String.concat nl2 ps))) ;;
  Some (PDict [("title", title); ("content", content); ("dialogue", PList [])]).

Definition flat_chapter (chapter : pyval) : option (list pyval) :=
  cv <- py_get_or "children" (PList []) chapter ;; secs <- py_list cv ;;
  map_opt (flat_section chapter) secs.

(** [LiteratureAnalyzer._flatten_units] *)
Definition flatten_units (units : list pyval) (dt : doc_type) : option (list pyval) :=
  if doc_type_eqb dt Play
  then ls <- map_opt flat_act units ;; Some (concat ls)
  else ls <- map_opt flat_chapter units ;; Some (concat ls).

(** [s[:2000]] *)
Definition trunc2000 (s : string) : string := substring 0 2000 s.

(** One entry of [lines] in [_extract_first_content]. *)
Definition first_block_line (b : pyval) : option string :=
  c <- py_get_opt "character" b ;;
  txt <- py_get_or "content" (PStr "") b ;;
  if py_truthy_opt c
  then cv <- c ;; cs <- py_str cv ;; ts <- py_str txt ;; Some (cs ++ ": " ++ ts)%string
  else py_str txt.

(** [LiteratureAnalyzer._extract_first_content] *)
Definition extract_first_content (units : list pyval) (dt : doc_type) : option string :=
  match units with
  | [] => Some ""
  | first_unit :: _ =>
      cv <- py_get_or "children" (PList []) first_unit ;; children <- py_list cv ;;
      if doc_type_eqb dt Play then
        match children with
        | [] => Some ""
        | first_scene :: _ =>
            bv <- py_get_or "blocks" (PList []) first_scene ;; bl <- py_list bv ;;
            lines <- map_opt first_block_line bl ;;
            Some (trunc2000 (String.concat nl1 lines))
        end
      else
        match children with
        | c0 :: _ => x <- py_get_or "content" (PStr "") c0 ;; s <- py_str x ;; Some (trunc2000 s)
        | [] => x <- py_get_or "content" (PStr "") first_unit ;; s <- py_str x ;; Some (trunc2000 s)
        end
  end.

Fixpoint list_prefix (p s : list ascii) : bool :=
  match p, s with
  | [], _ => true
  | a :: p', b :: s' => Ascii.eqb a b && list_prefix p' s'
  | _, _ => false
  end.

(** Python's [text.split(sep)] for a non-empty [sep]: [skip] drops the
    rest of a separator just found. *)
Fixpoint split_go (sep : list ascii) (s : list ascii) (skip : nat) (cur : list ascii)
  : list (list ascii) :=
  match s with
  | [] => [rev cur]
  | c :: s' =>
      match skip with
      | S k => split_go sep s' k cur
      | 0 =>
          if list_prefix sep s then rev cur :: split_go sep s' (length sep - 1) []
          else split_go sep s' 0 (c :: cur)
      end
  end.

Definition py_split (sep text : string) : list string :=
  map string_of_list_ascii (split_go (list_ascii_of_string sep) (list_ascii_of_string text) 0 []).

(** [[p.strip() for p in text.split("\n\n") if p.strip()]] in [analyze_text] *)
Definition paragraphs_of (text : string) : list string :=
  filter (fun p => negb (p =? "")%string) (map strip (py_split nl2 text)).

(** The [mock_blocks] of [analyze_text]: one text block, one line, one span per paragraph. *)
Definition mock_blocks (text : string) : list block :=
  map (fun p => mkBlock 0 [[p]]) (paragraphs_of text).

End Analyzer.

(** ** Sanity checks of the embedding on concrete inputs *)
Module Checks.
Import Tokenise Hierarchy Classify.

Example act_re_spans : finditer Classifier.ACT_RE "ACTI act 12x ACT IV" = [(13, 19)].
Proof. vm_compute. reflexivity. Qed.
Example cue_re_upper : rx_match Classifier.CUE_RE "HAMLET." = true /\ rx_match Classifier.CUE_RE "Hamlet." = false.
Proof. split; vm_compute; reflexivity. Qed.
Example first_person_count : findall_count Classifier.FIRST_PERS "I do, than I have ever I'm here" = 3.
Proof. vm_compute. reflexivity. Qed.
Example stage_verb_search : rx_search Classifier.STAGE_VERB "go (Exit Lady Macbeth) x" = true.
Proof. vm_compute. reflexivity. Qed.
Example strip_both_ends : strip "  ab c  " = "ab c".
Proof. reflexivity. Qed.
Example intro_float_product : is_intro 3 30 = false /\ is_intro 2 30 = true /\ is_intro 0 1 = true.
Proof. repeat split; reflexivity. Qed.
(** An act heading directly followed by a content token: [next_t["level"]] raises. *)
Example act_then_content_keyerror : build_play_hierarchy (tokenise [mkBlock 0 [["ACT I"]; ["HAMLET."]]] Play) = None.
Proof. vm_compute. reflexivity. Qed.

End Checks.

(** ** Lemmas on the classifier *)
Module ClassifyFacts.
Import Classify.
Local Open Scope Q_scope.

Lemma sig_add_keys k n s : map fst (sig_add k n s) = map fst s.
Proof.
  induction s as [|[k0 v] s IH]; simpl; [reflexivity|].
  destruct (k =? k0)%string; simpl; rewrite IH; reflexivity.
Qed.

Lemma sig_get_add_mono k k' n s : (sig_get k s <= sig_get k (sig_add k' n s))%nat.
Proof.
  induction s as [|[k0 v] s IH]; simpl; [lia|].
  destruct (k' =? k0)%string; simpl; destruct (k =? k0)%string; lia.
Qed.

Lemma sig_get_add_same k n s :
  In k (map fst s) -> sig_get k (sig_add k n s) = (sig_get k s + n)%nat.
Proof.
  induction s as [|[k0 v] s IH]; simpl; [tauto|].
  intros Hin. destruct (k =? k0)%string eqn:E; simpl; rewrite E; [reflexivity|].
  apply IH. destruct Hin as [->|Hin]; [|exact Hin].
  rewrite String.eqb_refl in E. discriminate.
Qed.

(** [a'] extends the signal counts of [a] over the same keys. *)
Definition grows (a a' : acc) : Prop :=
  map fst (sigs a') = map fst (sigs a) /\ forall k, (sig_get k (sigs a) <= sig_get k (sigs a'))%nat.

Lemma grows_get a b k : grows a b -> (sig_get k (sigs a) <= sig_get k (sigs b))%nat.
Proof. intros [_ H]. apply H. Qed.

Lemma grows_refl a : grows a a.
Proof. split; [reflexivity|intros; lia]. Qed.

Lemma grows_trans a b c : grows a b -> grows b c -> grows a c.
Proof.
  intros [Hk1 Hg1] [Hk2 Hg2]. split; [congruence|].
  intros k. specialize (Hg1 k). specialize (Hg2 k). lia.
Qed.

Lemma add_play_grows w k a : grows a (add_play w k a).
Proof. split; simpl; [apply sig_add_keys|intros; apply sig_get_add_mono]. Qed.

Lemma add_novel_grows w k n a : grows a (add_novel w k n a).
Proof. split; simpl; [apply sig_add_keys|intros; apply sig_get_add_mono]. Qed.

Lemma grows_when x y b f : (forall z, grows z (f z)) -> grows x y -> grows x (when b f y).
Proof. intros Hf Hxy. destruct b; simpl; [|exact Hxy]. eapply grows_trans; [exact Hxy|apply Hf]. Qed.

Ltac stages :=
  repeat first [ apply grows_refl
               | apply grows_when; [intro; first [apply add_play_grows | apply add_novel_grows] |] ].

Lemma line_step_grows n a it : grows a (line_step n a it).
Proof.
  destruct it as [i x]. unfold line_step. cbv beta iota zeta.
  destruct (strip x =? "")%string; [apply grows_refl|]. stages.
Qed.

Lemma fold_grows n l a : grows a (fold_left (line_step n) l a).
Proof.
  revert a. induction l as [|it l IH]; intros a; simpl; [apply grows_refl|].
  eapply grows_trans; [apply line_step_grows|apply IH].
Qed.

Lemma act_in_keys : In "act_heading" signal_keys.
Proof. simpl; tauto. Qed.
Lemma scene_in_keys : In "scene_heading" signal_keys.
Proof. simpl; tauto. Qed.

(** A line on which [_ACT_RE] is found raises the act count by one. *)
Lemma line_step_act n a i x :
  map fst (sigs a) = signal_keys -> (strip x =? "")%string = false ->
  rx_search Classifier.ACT_RE (strip x) = true ->
  (1 <= sig_get "act_heading" (sigs (line_step n a (i, x))))%nat.
Proof.
  intros Hk Hne Hact. unfold line_step. cbv beta iota zeta. rewrite Hne.
  apply Nat.le_trans with
    (sig_get "act_heading" (sigs (when (rx_search Classifier.ACT_RE (strip x))
                                       (add_play w_act_heading "act_heading") a))).
  - rewrite Hact. simpl. rewrite sig_get_add_same; [lia|]. rewrite Hk. apply act_in_keys.
  - apply grows_get. stages.
Qed.

Lemma line_step_scene n a i x :
  map fst (sigs a) = signal_keys -> (strip x =? "")%string = false ->
  rx_search Classifier.SCENE_RE (strip x) = true ->
  (1 <= sig_get "scene_heading" (sigs (line_step n a (i, x))))%nat.
Proof.
  intros Hk Hne Hsc. unfold line_step. cbv beta iota zeta. rewrite Hne.
  set (a1 := when (rx_search Classifier.ACT_RE (strip x)) (add_play w_act_heading "act_heading") a).
  assert (Hg1 : grows a a1) by (unfold a1; stages).
  apply Nat.le_trans with
    (sig_get "scene_heading" (sigs (when (rx_search Classifier.SCENE_RE (strip x))
                                         (add_play w_scene_heading "scene_heading") a1))).
  - rewrite Hsc. simpl. rewrite sig_get_add_same; [lia|].
    rewrite (proj1 Hg1), Hk. apply scene_in_keys.
  - apply grows_get. stages.
Qed.

Lemma enumerate_snd {A} (l : list A) i : map snd (enumerate_from i l) = l.
Proof. revert i; induction l; intros i; simpl; [reflexivity|]. rewrite IHl. reflexivity. Qed.

(** A key raised to [>= 1] by the step on one line stays [>= 1] after the loop. *)
Lemma fold_hit n k x (hit : forall a i, map fst (sigs a) = signal_keys ->
                                        (1 <= sig_get k (sigs (line_step n a (i, x))))%nat) :
  forall l a, In x (map snd l) -> map fst (sigs a) = signal_keys ->
  (1 <= sig_get k (sigs (fold_left (line_step n) l a)))%nat.
Proof.
  induction l as [|[i y] l IH]; intros a Hin Hk; [destruct Hin|].
  change (fold_left (line_step n) ((i, y) :: l) a) with (fold_left (line_step n) l (line_step n a (i, y))).
  simpl map in Hin. destruct Hin as [Hy|Hin].
  - rewrite Hy.
    apply Nat.le_trans with (sig_get k (sigs (line_step n a (i, x)))); [apply hit, Hk|].
    apply fold_grows.
  - apply IH; [exact Hin|]. rewrite (proj1 (line_step_grows n a (i, y))). exact Hk.
Qed.

Lemma signals0_keys : map fst signals0 = signal_keys.
Proof. reflexivity. Qed.

(** The loop of [classify] and the scores after the optional model blend. *)
Definition loop (blocks : list block) : acc :=
  let lines := extract_lines blocks in
  fold_left (line_step (length lines)) (enumerate_from 0 lines) (mkAcc 0 0 signals0).

Ltac open_classify :=
  unfold classify, loop; cbv zeta;
  let mlp := fresh "mlp" in let p := fresh "p" in let q := fresh "q" in
  destruct (match _ with Some f => _ | None => _ end) as [[mlp p] q];
  set (sg := sigs (fold_left _ _ _)).

Lemma classify_signals model blocks : signals_of (classify model blocks) = sigs (loop blocks).
Proof.
  open_classify. destruct (override sg); [reflexivity|]. destruct (Qlt_bool _ _); reflexivity.
Qed.

Lemma classify_override model blocks :
  override (signals_of (classify model blocks)) = true ->
  rtype (classify model blocks) = Play /\ confidence (classify model blocks) = 95 # 100.
Proof.
  open_classify. destruct (override sg) eqn:E; [intros; split; reflexivity|].
  destruct (Qlt_bool _ _); simpl; rewrite E; discriminate.
Qed.

End ClassifyFacts.

(** ** Further lemmas on the classifier and the builders *)
Module Facts.
Import Tokenise Hierarchy Classify ClassifyFacts.
Local Open Scope Q_scope.

Lemma act_line_hit n a i :
  map fst (sigs a) = signal_keys -> (1 <= sig_get "act_heading" (sigs (line_step n a (i, "ACT I"))))%nat.
Proof. intros Hk. apply line_step_act; [exact Hk| |]; vm_compute; reflexivity. Qed.

Lemma scene_line_hit n a i :
  map fst (sigs a) = signal_keys -> (1 <= sig_get "scene_heading" (sigs (line_step n a (i, "SCENE 1"))))%nat.
Proof. intros Hk. apply line_step_scene; [exact Hk| |]; vm_compute; reflexivity. Qed.

Lemma loop_hit k x blocks
  (hit : forall n a i, map fst (sigs a) = signal_keys -> (1 <= sig_get k (sigs (line_step n a (i, x))))%nat) :
  In x (extract_lines blocks) -> (1 <= sig_get k (sigs (loop blocks)))%nat.
Proof.
  intros Hin. unfold loop. apply fold_hit with (x := x); [apply hit| |apply signals0_keys].
  rewrite enumerate_snd. exact Hin.
Qed.












(** Nothing to tokenise when there is no non-blank line. *)
Lemma tokenise_no_lines blocks dt : extract_lines blocks = [] -> tokenise blocks dt = [].
Proof.
  unfold extract_lines, tokenise.
  induction blocks as [|b bs IH]; [reflexivity|].
  simpl flat_map. intros H.
  apply app_eq_nil in H as [H1 H2].
  rewrite (IH H2). rewrite app_nil_r.
  destruct (btype b =? 0)%nat; [|reflexivity].
  clear IH H2. induction (blines b) as [|l ls IHl]; [reflexivity|].
  simpl in H1 |- *. destruct (line_text l =? "")%string; simpl in H1; [|discriminate].
  apply IHl, H1.
Qed.

Lemma substring_all (x : string) : substring 0 (String.length x) x = x.
Proof. induction x as [|c x IH]; simpl; [reflexivity|]. rewrite IH. reflexivity. Qed.

(** Every match that survives the filter is emitted as a heading. *)
Lemma emit_keeps line lvl st e :
  noise line st e = false ->
  forall ms lp, In (lvl, (st, e)) ms -> In (Heading lvl (slice line st e) false) (emit line ms lp).
Proof.
  intros Hn ms. induction ms as [|[lvl' [st' e']] ms IH]; intros lp Hin; [destruct Hin|].
  simpl. destruct Hin as [Heq|Hin].
  - inversion Heq; subst. rewrite Hn. apply in_or_app. right. left. reflexivity.
  - destruct (noise line st' e'); [apply IH, Hin|].
    apply in_or_app. right. right. apply IH, Hin.
Qed.

(** A line whose matches are all filtered is one content token. *)
Lemma emit_all_noise line :
  forall ms lp, forallb (fun m => noise line (fst (snd m)) (snd (snd m))) ms = true ->
  emit line ms lp = emit line [] lp.
Proof.
  induction ms as [|[lvl [st e]] ms IH]; intros lp H; [reflexivity|].
  simpl in H. apply andb_true_iff in H as [H1 H2]. simpl. rewrite H1. apply IH, H2.
Qed.

Lemma cluster_head tokens i t :
  nth_error tokens i = Some t -> is_heading t = true ->
  exists rest, cluster_indices tokens i = i :: rest.
Proof.
  intros Hi Ht. unfold cluster_indices.
  assert (Hlt : (i < length tokens)%nat) by (apply nth_error_Some; congruence).
  destruct (Nat.min (i + 8) (length tokens) - i)%nat as [|k] eqn:E; [lia|].
  simpl. rewrite Hi, Ht. eexists. reflexivity.
Qed.

(** The rule of the TOC filter: the window of a heading at [i] marks all
    its headings when it has [>= 4] of them and [< 200] content chars. *)
Lemma toc_rule tokens i t j :
  nth_error tokens i = Some t -> is_heading t = true ->
  (4 <= length (cluster_indices tokens i))%nat ->
  (content_length tokens i (last (cluster_indices tokens i) i) < 200)%nat ->
  In j (cluster_indices tokens i) -> In j (toc_indices tokens).
Proof.
  intros Hi Ht H4 H200 Hj. unfold toc_indices. apply in_flat_map.
  exists i. split.
  - apply in_seq. split; [lia|]. simpl. apply nth_error_Some. congruence.
  - unfold toc_marks_at. rewrite Hi, Ht.
    destruct (cluster_head tokens i t Hi Ht) as [rest Hr]. rewrite Hr in *.
    apply Nat.leb_le in H4. apply Nat.ltb_lt in H200. unfold last_nat.
    rewrite H4, H200. exact Hj.
Qed.

(** A marked heading is skipped: the play state is unchanged. *)
Lemma toc_skip toc tokens j lvl title inf st :
  In j toc -> play_step toc tokens j (Heading lvl title inf) st = Some st.
Proof.
  intros Hj. simpl. unfold in_toc.
  replace (existsb (Nat.eqb j) toc) with true; [reflexivity|].
  symmetry. apply existsb_exists. exists j. split; [exact Hj|apply Nat.eqb_refl].
Qed.

End Facts.

(** ** Lemmas on strings, the matcher and the analyzer's inputs *)
Module ExtraFacts.
Import Tokenise Hierarchy Classify ClassifyFacts Facts PyView SearchHeading Analyzer.
Local Open Scope list_scope.

(** [lstrip] on the character list. *)
Fixpoint dropw (l : list ascii) : list ascii :=
  match l with c :: l' => if is_space c then dropw l' else l | [] => [] end.

(** A list that does not start with a space. *)
Definition good (l : list ascii) : Prop :=
  match l with c :: _ => is_space c = false | [] => True end.

Lemma lstrip_l s : list_ascii_of_string (lstrip s) = dropw (list_ascii_of_string s).
Proof. induction s as [|c s IH]; simpl; [reflexivity|]. destruct (is_space c); [exact IH|reflexivity]. Qed.

Lemma strip_l s :
  list_ascii_of_string (strip s) = rev (dropw (rev (dropw (list_ascii_of_string s)))).
Proof.
  unfold strip, rev_str.
  rewrite list_ascii_of_string_of_list_ascii, lstrip_l, list_ascii_of_string_of_list_ascii, lstrip_l.
  reflexivity.
Qed.

Lemma dropw_good l : good (dropw l).
Proof. induction l as [|c l IH]; simpl; [exact I|]. destruct (is_space c) eqn:E; [exact IH|exact E]. Qed.

Lemma dropw_id l : good l -> dropw l = l.
Proof. destruct l as [|c l]; simpl; [reflexivity|]. intros H. rewrite H. reflexivity. Qed.

Lemma dropw_suffix l : exists p, l = p ++ dropw l.
Proof.
  induction l as [|c l [p Hp]]; simpl; [exists []; reflexivity|].
  destruct (is_space c); [exists (c :: p); simpl; congruence|exists []; reflexivity].
Qed.

Lemma rev_good l : good l -> good (rev (dropw (rev l))).
Proof.
  intros Hl. destruct (dropw_suffix (rev l)) as [p Hp].
  assert (Hl' : l = rev (dropw (rev l)) ++ rev p).
  { rewrite <- rev_app_distr, <- Hp, rev_involutive. reflexivity. }
  destruct (rev (dropw (rev l))) as [|c t]; [exact I|]. simpl in *. rewrite Hl' in Hl. exact Hl.
Qed.

Lemma string_l_inj s t : list_ascii_of_string s = list_ascii_of_string t -> s = t.
Proof.
  intros H. rewrite <- (string_of_list_ascii_of_string s), <- (string_of_list_ascii_of_string t), H.
  reflexivity.
Qed.

(** [str.strip] is idempotent. *)
Lemma strip_idem s : strip (strip s) = strip s.
Proof.
  apply string_l_inj. rewrite !strip_l.
  set (w := dropw (list_ascii_of_string s)).
  set (v := dropw (rev w)).
  assert (Hg : good (rev v)) by (apply rev_good, dropw_good).
  rewrite (dropw_id (rev v) Hg), rev_involutive, (dropw_id v (dropw_good _)). reflexivity.
Qed.

Lemma get_lt i s c : get i s = Some c -> (i < String.length s)%nat.
Proof.
  revert i. induction s as [|d s IH]; intros [|i]; simpl; try discriminate; [lia|].
  intros H. apply IH in H. lia.
Qed.

(** The matcher only hands the continuation positions between the start
    and the end of the string. *)
Lemma mt_bound f s : forall r i k e, (i <= String.length s)%nat -> mt f s r i k = Some e ->
  exists j, (i <= j <= String.length s)%nat /\ k j = Some e.
Proof.
  induction f as [|f IH]; intros r i k e Hi H; [discriminate|].
  destruct r as [p|a b|a b|a lo hi| | | ]; simpl in H.
  - destruct (get i s) as [c|] eqn:G; [|discriminate]. destruct (p c); [|discriminate].
    apply get_lt in G. exists (S i). split; [lia|exact H].
  - apply IH in H as [j [Hj Hk]]; [|lia]. apply IH in Hk as [j' [Hj' Hk']]; [|lia].
    exists j'. split; [lia|exact Hk'].
  - destruct (mt f s a i k) as [e'|] eqn:E.
    + injection H as <-. apply IH in E; [exact E|lia].
    + apply IH in H; [exact H|lia].
  - destruct lo as [|lo].
    + assert (Hrep : forall hi',
        match mt f s a i (fun j => if (i <? j)%nat then mt f s (RRep a 0 hi') j k else None) with
        | Some e => Some e | None => k i end = Some e ->
        exists j, (i <= j <= String.length s)%nat /\ k j = Some e).
      { clear H. intros hi' H'. destruct (mt f s a i _) as [e'|] eqn:E.
        - injection H' as <-. apply IH in E as [j [Hj Hk]]; [|lia].
          destruct (i <? j)%nat; [|discriminate]. apply IH in Hk as [j' [Hj' Hk']]; [|lia].
          exists j'. split; [lia|exact Hk'].
        - exists i. split; [lia|exact H']. }
      destruct hi as [[|h]|]; [exists i; split; [lia|exact H] | apply (Hrep _ H) | apply (Hrep _ H)].
    + apply IH in H as [j [Hj Hk]]; [|lia]. apply IH in Hk as [j' [Hj' Hk']]; [|lia].
      exists j'. split; [lia|exact Hk'].
  - destruct (i =? 0)%nat; [exists i; split; [lia|exact H]|discriminate].
  - destruct (_ || _); [exists i; split; [lia|exact H]|discriminate].
  - destruct (at_word_boundary s i); [exists i; split; [lia|exact H]|discriminate].
Qed.

Lemma rx_match_at_bound r s i e : (i <= String.length s)%nat -> rx_match_at r s i = Some e ->
  (i <= e <= String.length s)%nat.
Proof.
  unfold rx_match_at. intros Hi H. apply mt_bound in H as [j [Hj Hk]]; [|exact Hi].
  inversion Hk; subst. exact Hj.
Qed.

Lemma search_from_bound r s : forall n i a b, (i + n <= String.length s)%nat ->
  search_from r s i n = Some (a, b) -> (i <= a /\ a <= b <= String.length s)%nat.
Proof.
  induction n as [|n IH]; intros i a b Hn H; simpl in H;
    destruct (rx_match_at r s i) as [e|] eqn:E.
  - inversion H; subst. apply rx_match_at_bound in E; lia.
  - discriminate.
  - inversion H; subst. apply rx_match_at_bound in E; lia.
  - apply IH in H; lia.
Qed.

Lemma substring_length n s : String.length (substring 0 n s) = Nat.min n (String.length s).
Proof.
  revert n. induction s as [|c s IH]; intros [|n]; simpl; try reflexivity. rewrite IH. reflexivity.
Qed.

Lemma neq_empty t : negb (t =? "")%string = true -> t <> ""%string.
Proof. intros H. apply negb_true_iff, String.eqb_neq in H. exact H. Qed.

(** The paragraphs of [analyze_text] are stripped and non-empty. *)
Lemma paragraphs_clean text : Forall (fun p => p <> ""%string /\ strip p = p) (paragraphs_of text).
Proof.
  apply Forall_forall. intros p Hp. unfold paragraphs_of in Hp.
  apply filter_In in Hp as [Hm Hne]. apply in_map_iff in Hm as [q [<- _]].
  split; [apply neq_empty, Hne|apply strip_idem].
Qed.

Lemma clean_line p : p <> ""%string -> strip p = p ->
  filter (fun t => negb (t =? "")%string) (map line_text [[p]]) = [p].
Proof.
  intros Hne Hs. simpl. unfold line_text. simpl. rewrite Hs.
  apply String.eqb_neq in Hne. rewrite Hne. reflexivity.
Qed.

(** Blocks whose type is not [0] are skipped by [_extract_lines] and [_tokenise]. *)
Lemma extract_lines_text blocks :
  extract_lines (filter (fun b => btype b =? 0) blocks) = extract_lines blocks.
Proof.
  induction blocks as [|b bs IH]; [reflexivity|]. simpl.
  destruct (btype b =? 0) eqn:E; simpl; rewrite ?E, IH; reflexivity.
Qed.

Lemma tokenise_text blocks dt :
  tokenise (filter (fun b => btype b =? 0) blocks) dt = tokenise blocks dt.
Proof.
  induction blocks as [|b bs IH]; [reflexivity|]. simpl.
  destruct (btype b =? 0) eqn:E; simpl; rewrite ?E, IH; reflexivity.
Qed.

(** A step of the loop raises the count of [k] by at most [m]. *)
Definition bumps (k : string) (m : nat) (a a' : acc) : Prop :=
  (sig_get k (sigs a') <= sig_get k (sigs a) + m)%nat.

Lemma sig_get_add_le k k' n s :
  (sig_get k (sig_add k' n s) <= sig_get k s + (if (k =? k')%string then n else 0))%nat.
Proof.
  induction s as [|[k0 v] s IH]; simpl; [lia|].
  destruct (k' =? k0)%string eqn:E1; simpl; destruct (k =? k0)%string eqn:E2;
    try (apply String.eqb_eq in E1; apply String.eqb_eq in E2; subst;
         rewrite String.eqb_refl; lia); try lia.
  all: try (apply String.eqb_eq in E1; subst; rewrite E2 in IH; lia).
  all: destruct (k =? k')%string; lia.
Qed.

Lemma bumps_refl k a : bumps k 0 a a.
Proof. unfold bumps. lia. Qed.

Lemma bumps_when k b f a a' m1 m2 :
  (forall z, bumps k m2 z (f z)) -> bumps k m1 a a' -> bumps k (m1 + m2) a (when b f a').
Proof.
  unfold bumps. intros Hf H. destruct b; simpl; [specialize (Hf a')|]; lia.
Qed.

Lemma bumps_play k w k' : forall z, bumps k (if (k =? k')%string then 1 else 0) z (add_play w k' z).
Proof. intros z. apply sig_get_add_le. Qed.

Lemma bumps_novel k w k' n : forall z, bumps k (if (k =? k')%string then n else 0) z (add_novel w k' n z).
Proof. intros z. apply sig_get_add_le. Qed.

(** The increments of one line: one per matching test, [fp] for [first_person]. *)
Definition line_bump (k : string) (fp : nat) : nat :=
  0 + (if (k =? "act_heading")%string then 1 else 0)
    + (if (k =? "scene_heading")%string then 1 else 0)
    + (if (k =? "character_cue")%string then 1 else 0)
    + (if (k =? "stage_direction")%string then 1 else 0)
    + (if (k =? "cast_page")%string then 1 else 0)
    + (if (k =? "chapter_heading")%string then 1 else 0)
    + (if (k =? "first_person")%string then fp else 0)
    + (if (k =? "said_tag")%string then 1 else 0)
    + (if (k =? "prose_sentence")%string then 1 else 0).

Lemma line_step_bumps n a i x k :
  bumps k (line_bump k (findall_count Classifier.FIRST_PERS (strip x))) a (line_step n a (i, x)).
Proof.
  unfold line_step. cbv beta iota zeta.
  destruct (strip x =? "")%string.
  - unfold bumps. lia.
  - unfold line_bump.
    repeat (apply bumps_when; [intro; first [apply bumps_play | apply bumps_novel] |]).
    apply bumps_refl.
Qed.

Lemma line_bump_le1 k fp : k <> "first_person"%string -> (line_bump k fp <= 1)%nat.
Proof.
  intros Hk. unfold line_bump.
  repeat match goal with
  | |- context [(k =? ?s)%string] =>
      let H := fresh in
      destruct (String.eqb_spec k s) as [->|H];
      [cbn; first [lia | congruence] | idtac]
  end.
  lia.
Qed.

Lemma line_bump_stage_verb fp : line_bump "stage_verb" fp = 0%nat.
Proof. reflexivity. Qed.

Lemma fold_bumps n k (m : nat) (Hm : forall a it, bumps k m a (line_step n a it)) :
  forall l a, (sig_get k (sigs (fold_left (line_step n) l a)) <= sig_get k (sigs a) + m * length l)%nat.
Proof.
  induction l as [|it l IH]; intros a; simpl; [lia|].
  specialize (IH (line_step n a it)). specialize (Hm a it). unfold bumps in Hm. lia.
Qed.

Lemma enumerate_length {A} (l : list A) i : length (enumerate_from i l) = length l.
Proof. revert i; induction l; intros i; simpl; [reflexivity|]. rewrite IHl. reflexivity. Qed.

Lemma signals0_get k : sig_get k signals0 = 0%nat.
Proof.
  unfold signals0, signal_keys. simpl.
  repeat match goal with |- context [if (k =? ?s)%string then _ else _] => destruct (k =? s)%string end;
  reflexivity.
Qed.


(** *** Case splits on the [match]es of a goal or a hypothesis *)
Ltac split_goal_matches :=
  repeat match goal with |- context [match ?x with _ => _ end] => destruct x end.
Ltac split_hyp_matches H :=
  repeat match type of H with context [match ?x with _ => _ end] => destruct x end.

(** *** [_tokenise] *)

Lemma insert_by_start_In m l x : In x (insert_by_start m l) -> x = m \/ In x l.
Proof.
  induction l as [|m' l IH]; simpl; [intros [H|[]]; left; symmetry; exact H|].
  destruct (fst (snd m) <? fst (snd m')); simpl.
  - intros [H|H]; [left; symmetry; exact H|right; exact H].
  - intros [H|H]; [right; left; exact H|]. destruct (IH H) as [H'|H']; [left; exact H'|right; right; exact H'].
Qed.

Lemma sort_by_start_In l x : In x (sort_by_start l) -> In x l.
Proof.
  unfold sort_by_start.
  assert (G : forall acc, In x (fold_left (fun acc m => insert_by_start m acc) l acc) -> In x acc \/ In x l).
  { induction l as [|m l IH]; simpl; intros acc H; [auto|].
    destruct (IH _ H) as [H'|H']; [|auto]. destruct (insert_by_start_In _ _ _ H'); auto. }
  intros H. destruct (G [] H) as [[]|H']; exact H'.
Qed.

Lemma line_matches_level dt line lvl sp :
  In (lvl, sp) (line_matches dt line) ->
  if doc_type_eqb dt Play then lvl = Act \/ lvl = Scene else lvl = Chapter.
Proof.
  unfold line_matches. intros H. apply sort_by_start_In in H.
  destruct (doc_type_eqb dt Play).
  - apply in_app_or in H as [H|H]; apply in_map_iff in H as [sp' [E _]]; injection E as <- _; auto.
  - apply in_map_iff in H as [sp' [E _]]. injection E as <- _. reflexivity.
Qed.

(** The shape of every token: stripped non-empty content, or a heading that
    is not inferred and whose level comes from a match of the line. *)
Lemma emit_shape line ms : forall lp,
  Forall (fun t => match t with
                   | Content x => x <> ""%string /\ strip x = x
                   | Heading lvl _ inf => inf = false /\ exists sp, In (lvl, sp) ms
                   end) (emit line ms lp).
Proof.
  induction ms as [|[lvl [st e]] ms IH]; intros lp; simpl.
  - destruct (_ =? "")%string eqn:E; constructor; [|constructor].
    split; [apply String.eqb_neq, E|apply strip_idem].
  - assert (W : forall l, Forall (fun t => match t with
                   | Content x => x <> ""%string /\ strip x = x
                   | Heading lvl _ inf => inf = false /\ exists sp, In (lvl, sp) ms
                   end) l ->
               Forall (fun t => match t with
                   | Content x => x <> ""%string /\ strip x = x
                   | Heading lvl' _ inf => inf = false /\ exists sp, In (lvl', sp) ((lvl, (st, e)) :: ms)
                   end) l).
    { intros l Hl. eapply Forall_impl; [|exact Hl]. intros [lv ti inf|x]; [|auto].
      intros [Hi [sp Hs]]. split; [exact Hi|exists sp; right; exact Hs]. }
    destruct (noise line st e); [apply W, IH|].
    apply Forall_app. split.
    + destruct (_ =? "")%string eqn:E; constructor; [|constructor].
      split; [apply String.eqb_neq, E|apply strip_idem].
    + constructor; [split; [reflexivity|exists (st, e); left; reflexivity]|apply W, IH].
Qed.

(** The token shape checked by [tokens_well_formed]. *)
Definition token_ok (dt : doc_type) (t : token) : Prop :=
  match t with
  | Content x => x <> ""%string /\ strip x = x
  | Heading lvl _ inf =>
      inf = false /\ (if doc_type_eqb dt Play then lvl = Act \/ lvl = Scene else lvl = Chapter)
  end.

Lemma tokenise_line_ok dt line : Forall (token_ok dt) (tokenise_line dt line).
Proof.
  unfold tokenise_line. eapply Forall_impl; [|apply emit_shape].
  intros [lvl ti inf|x]; simpl; [|auto].
  intros [Hi [sp Hs]]. split; [exact Hi|]. exact (line_matches_level dt line lvl sp Hs).
Qed.

(** *** [_build_play_hierarchy] *)

Lemma in_toc_true toc i : In i toc -> in_toc toc i = true.
Proof. intros H. apply existsb_exists. exists i. split; [exact H|apply Nat.eqb_refl]. Qed.

Lemma in_toc_false toc i : ~ In i toc -> in_toc toc i = false.
Proof.
  intros H. destruct (in_toc toc i) eqn:E; [|reflexivity].
  apply existsb_exists in E as [j [Hj Ej]]. apply Nat.eqb_eq in Ej. subst. contradiction.
Qed.

(** When every heading from index [i] on is a TOC heading, the loop keeps
    the initial state. *)
Lemma play_loop_skip_all toc tokens : forall ts i,
  (forall k lvl t inf, nth_error ts k = Some (Heading lvl t inf) -> in_toc toc (i + k) = true) ->
  play_loop toc tokens i ts pstate0 = Some pstate0.
Proof.
  induction ts as [|x ts IH]; intros i H; [reflexivity|].
  cbn [play_loop].
  replace (play_step toc tokens i x pstate0) with (Some pstate0).
  - apply IH. intros k lvl t inf Hk. replace (S i + k) with (i + S k) by lia. exact (H (S k) lvl t inf Hk).
  - destruct x as [lvl t inf|text]; [|reflexivity].
    pose proof (H 0 lvl t inf eq_refl) as H0. rewrite Nat.add_0_r in H0.
    unfold play_step. rewrite H0. reflexivity.
Qed.

(** A step raises only at an act heading whose next token is content. *)
Lemma play_step_some toc tokens i x st :
  (forall t inf, x = Heading Act t inf -> next_is_content tokens i = false) ->
  play_step toc tokens i x st <> None.
Proof.
  intros H. unfold play_step.
  destruct x as [lvl t inf|text].
  - destruct (in_toc toc i); [discriminate|].
    destruct (is_act lvl && repeats_cur_act st t); [discriminate|].
    destruct (is_act lvl && next_is_content tokens i) eqn:E.
    + destruct lvl; try discriminate E. simpl in E. rewrite (H t inf eq_refl) in E. discriminate E.
    + cbv zeta. split_goal_matches; discriminate.
  - split_goal_matches; discriminate.
Qed.

Lemma play_loop_total toc tokens : forall ts i st,
  (forall k t inf, nth_error ts k = Some (Heading Act t inf) -> next_is_content tokens (i + k) = false) ->
  play_loop toc tokens i ts st <> None.
Proof.
  induction ts as [|x ts IH]; intros i st H; [discriminate|].
  cbn [play_loop].
  destruct (play_step toc tokens i x st) as [st'|] eqn:E.
  - apply IH. intros k t inf Hk. replace (S i + k) with (i + S k) by lia. exact (H (S k) t inf Hk).
  - exfalso. revert E. apply play_step_some. intros t inf ->.
    rewrite <- (Nat.add_0_r i). exact (H 0 t inf eq_refl).
Qed.

(** *** [_build_novel_hierarchy] *)

(** The fold invariant: the paragraphs of the closed chapters and of the open
    one are the content texts seen so far; a closed chapter holds one section
    with some paragraphs; a title is ["Beginning"] or a chapter heading's. *)
Lemma novel_fold_inv (l : list token) :
  forall chs title paras, fold_left novel_step l ([], "Beginning"%string, []) = (chs, title, paras) ->
  concat (map (fun c => concat (map paragraphs (ch_children c))) chs) ++ paras
    = map text_of (filter is_content l) /\
  Forall (fun c => exists t ps, c = close_chapter t ps /\ ps <> [] /\
            (t = "Beginning"%string \/ exists inf, In (Heading Chapter t inf) l)) chs /\
  (title = "Beginning"%string \/ exists inf, In (Heading Chapter title inf) l).
Proof.
  induction l as [|x l IH] using rev_ind; intros chs title paras E.
  - injection E as <- <- <-. simpl. auto.
  - rewrite fold_left_app in E. cbn [fold_left] in E.
    destruct (fold_left novel_step l ([], "Beginning"%string, [])) as [[chs0 title0] paras0] eqn:E0.
    destruct (IH _ _ _ eq_refl) as (H1 & H2 & H3).
    assert (W : forall y, In y l -> In y (l ++ [x])) by (intros; apply in_or_app; auto).
    assert (Hx : In x (l ++ [x])) by (apply in_or_app; right; left; reflexivity).
    assert (W2 : forall t, (t = "Beginning"%string \/ exists inf, In (Heading Chapter t inf) l) ->
                           (t = "Beginning"%string \/ exists inf, In (Heading Chapter t inf) (l ++ [x])))
      by (intros t [Ht|[inf Ht]]; [left; exact Ht|right; exists inf; apply W, Ht]).
    assert (H2' : Forall (fun c => exists t ps, c = close_chapter t ps /\ ps <> [] /\
            (t = "Beginning"%string \/ exists inf, In (Heading Chapter t inf) (l ++ [x]))) chs0)
      by (eapply Forall_impl; [|exact H2]; intros c (t & ps & Hc & Hp & Ht); exists t, ps; auto).
    rewrite filter_app, map_app, <- H1.
    destruct x as [lvl t' inf|text]; [destruct lvl|]; simpl in E.
    + injection E as <- <- <-. simpl. rewrite !app_nil_r. auto.
    + injection E as <- <- <-. simpl. rewrite !app_nil_r. auto.
    + destruct paras0 as [|p ps]; injection E as <- <- <-.
      * simpl. rewrite !app_nil_r. split; [reflexivity|split; [exact H2'|right; exists inf; exact Hx]].
      * split; [|split].
        -- rewrite map_app, concat_app. simpl. rewrite !app_nil_r. reflexivity.
        -- apply Forall_app. split; [exact H2'|]. constructor; [|constructor].
           exists title0, (p :: ps). split; [reflexivity|split; [discriminate|apply W2, H3]].
        -- right. exists inf. exact Hx.
    + injection E as <- <- <-. simpl. rewrite app_assoc. auto.
Qed.

(** *** [_analyse_play_content] *)

(** What a block of [_analyse_play_content lines] is made of: a dialogue's
    character is a cue line, a stage direction is a bracketed line that is
    not a cue, a narrative block is a line, all taken from [lines]. *)
Definition play_block_ok (lines : list string) (b : cblock) : Prop :=
  match b with
  | Dialogue ch _ =>
      In ch lines /\ rx_match Segmenter.CUE_RE ch = true /\ String.length ch <= 1000
  | StageDirection c =>
      In c lines /\ rx_match Segmenter.CUE_RE c = false /\
      (starts_with "[" c || starts_with "(" c) = true /\ String.length c <= 1000
  | Narrative c => In c lines
  end.

Lemma play_block_ok_weaken lines l b : play_block_ok lines b -> play_block_ok (lines ++ l) b.
Proof.
  assert (W : forall x : string, In x lines -> In x (lines ++ l)) by (intros; apply in_or_app; auto).
  destruct b; simpl; intuition.
Qed.

Lemma extend_dialogue_shape blocks line b :
  extend_dialogue blocks line = Some b ->
  length b = length blocks /\
  forall x, In x b -> In x blocks \/ exists ch c c', x = Dialogue ch c' /\ In (Dialogue ch c) blocks.
Proof.
  unfold extend_dialogue. destruct (rev blocks) as [|[ch c|c|c] rest] eqn:E; try discriminate.
  intros H; injection H as <-.
  assert (Hb : blocks = rev rest ++ [Dialogue ch c]) by (rewrite <- (rev_involutive blocks), E; reflexivity).
  rewrite Hb. split.
  - rewrite !length_app. reflexivity.
  - intros x Hx. apply in_app_or in Hx as [Hx|[<-|[]]].
    + left. apply in_or_app. left. exact Hx.
    + right. exists ch, c. eexists. split; [reflexivity|]. apply in_or_app. right. left. reflexivity.
Qed.

Lemma analyse_play_content_inv lines :
  length (analyse_play_content lines) <= length lines /\
  Forall (play_block_ok lines) (analyse_play_content lines).
Proof.
  induction lines as [|l lines IH] using rev_ind; [split; [auto|constructor]|].
  unfold analyse_play_content in *. rewrite fold_left_app. cbn [fold_left].
  set (bs := fold_left analyse_line lines []) in *.
  destruct IH as [Hlen Hok].
  assert (Hw : Forall (play_block_ok (lines ++ [l])) bs)
    by (eapply Forall_impl; [|exact Hok]; intros; apply play_block_ok_weaken; assumption).
  assert (Hl : In l (lines ++ [l])) by (apply in_or_app; right; left; reflexivity).
  rewrite length_app. simpl length.
  assert (Hcn : length (continue_or_narrative bs l) <= length lines + 1 /\
                Forall (play_block_ok (lines ++ [l])) (continue_or_narrative bs l)).
  { unfold continue_or_narrative. destruct (extend_dialogue bs l) as [b|] eqn:E.
    - destruct (extend_dialogue_shape _ _ _ E) as [E1 E2]. split; [lia|].
      apply Forall_forall. intros x Hx. destruct (E2 x Hx) as [Hx'|(ch & c & c' & -> & Hd)].
      + exact (proj1 (Forall_forall _ _) Hw x Hx').
      + exact (proj1 (Forall_forall _ _) Hw _ Hd).
    - rewrite length_app. simpl. split; [lia|]. apply Forall_app. split; [exact Hw|].
      constructor; [exact Hl|constructor]. }
  unfold analyse_line.
  destruct (1000 <? String.length l) eqn:L; [exact Hcn|].
  apply Nat.ltb_ge in L.
  destruct (rx_match Segmenter.CUE_RE l) eqn:C.
  - rewrite length_app. simpl. split; [lia|]. apply Forall_app. split; [exact Hw|].
    constructor; [|constructor]. simpl. auto.
  - destruct (starts_with "[" l || starts_with "(" l) eqn:S; [|exact Hcn].
    rewrite length_app. simpl. split; [lia|]. apply Forall_app. split; [exact Hw|].
    constructor; [|constructor]. simpl. auto.
Qed.

(** *** [_flatten_units] and [_extract_first_content] on the segmenter's dicts *)

Lemma map_opt_map {A B C} (f : B -> option C) (g : A -> B) (h : A -> C) (l : list A) :
  (forall x, In x l -> f (g x) = Some (h x)) -> map_opt f (map g l) = Some (map h l).
Proof.
  induction l as [|x l IH]; intros H; [reflexivity|].
  simpl. rewrite H by (left; reflexivity). rewrite IH by (intros; apply H; right; assumption).
  reflexivity.
Qed.

(** The [full_content] entry of [_flatten_units] for a block built by
    [_analyse_play_content]. *)
Definition flat_line (b : cblock) : string :=
  match b with
  | Dialogue ch c => (ch ++ ": " ++ c)%string
  | StageDirection c => ("[" ++ c ++ "]")%string
  | Narrative c => c
  end.

(** The [lines] entry of [_extract_first_content] for such a block. *)
Definition first_line (b : cblock) : string :=
  match b with
  | Dialogue ch c => if (ch =? "")%string then c else (ch ++ ": " ++ c)%string
  | StageDirection c => c
  | Narrative c => c
  end.

Lemma flat_block_line_py b : flat_block_line (cblock_to_py b) = Some (flat_line b).
Proof. destruct b; reflexivity. Qed.

Lemma first_block_line_py b : first_block_line (cblock_to_py b) = Some (first_line b).
Proof. destruct b as [ch c|c|c]; [|reflexivity|reflexivity].
  unfold first_block_line. simpl. destruct (ch =? "")%string; reflexivity.
Qed.

Lemma flat_scene_py a s :
  flat_scene (act_to_py a) (scene_to_py s) =
  Some (PDict [("title", PStr (act_title a ++ " - " ++ scene_title s)%string);
               ("content", PStr (String.concat nl2 (map flat_line (scene_blocks s))));
               ("blocks", PList (map cblock_to_py (scene_blocks s)))]).
Proof.
  unfold flat_scene. simpl.
  rewrite (map_opt_map flat_block_line cblock_to_py flat_line) by (intros; apply flat_block_line_py).
  reflexivity.
Qed.

Lemma flat_section_py c s :
  flat_section (chapter_to_py c) (section_to_py s) =
  Some (PDict [("title", PStr (if (sec_title s =? "")%string then ch_title c
                               else (ch_title c ++ " - " ++ sec_title s)%string));
               ("content", PStr (section_content s)); ("dialogue", PList [])]).
Proof.
  unfold flat_section. simpl.
  destruct (sec_title s =? "")%string; simpl;
  (destruct (section_content s =? "")%string; simpl; [|reflexivity]);
  rewrite (map_opt_map py_str PStr (fun x => x)) by reflexivity; rewrite map_id; reflexivity.
Qed.

(** *** [str.split] *)

Fixpoint join_l (sep : list ascii) (l : list (list ascii)) : list ascii :=
  match l with
  | [] => []
  | [x] => x
  | x :: l' => x ++ sep ++ join_l sep l'
  end.

Lemma list_ascii_append s t :
  list_ascii_of_string (s ++ t)%string = list_ascii_of_string s ++ list_ascii_of_string t.
Proof. induction s as [|c s IH]; simpl; [reflexivity|rewrite IH; reflexivity]. Qed.

Lemma concat_join sep l :
  list_ascii_of_string (String.concat sep l) =
  join_l (list_ascii_of_string sep) (map list_ascii_of_string l).
Proof.
  induction l as [|x [|y l] IH]; [reflexivity|reflexivity|].
  change (String.concat sep (x :: y :: l)) with (x ++ sep ++ String.concat sep (y :: l))%string.
  rewrite !list_ascii_append, IH. reflexivity.
Qed.

Lemma list_prefix_app p s : list_prefix p s = true -> s = p ++ skipn (length p) s.
Proof.
  revert s. induction p as [|a p IH]; intros [|b s] H; simpl in *; try discriminate; [reflexivity|reflexivity|].
  apply andb_prop in H as [H1 H2]. apply Ascii.eqb_eq in H1. subst. f_equal. apply IH, H2.
Qed.

Lemma split_go_cons sep s : forall k cur, exists y l, split_go sep s k cur = y :: l.
Proof.
  induction s as [|c s IH]; intros k cur; simpl; [eauto|].
  destruct k; [destruct (list_prefix sep (c :: s)); eauto|eauto].
Qed.

Lemma split_go_join sep (Hs : sep <> []) : forall s k cur,
  join_l sep (split_go sep s k cur) = rev cur ++ skipn k s.
Proof.
  induction s as [|c s IH]; intros k cur.
  - simpl. destruct k; rewrite app_nil_r; reflexivity.
  - destruct k as [|k]; cbn [split_go skipn].
    + destruct (list_prefix sep (c :: s)) eqn:P.
      * destruct (split_go_cons sep s (length sep - 1) []) as (y & l & E).
        change (join_l sep (rev cur :: split_go sep s (length sep - 1) []))
          with (match split_go sep s (length sep - 1) [] with
                | [] => rev cur
                | _ => rev cur ++ sep ++ join_l sep (split_go sep s (length sep - 1) [])
                end).
        rewrite E, <- E, IH. simpl.
        apply list_prefix_app in P. rewrite P.
        destruct sep as [|d sep']; [contradiction|]. simpl. rewrite Nat.sub_0_r. reflexivity.
      * rewrite IH. simpl. rewrite <- app_assoc. reflexivity.
    + apply IH.
Qed.

End ExtraFacts.

(** * Claims *)
Import Floats.PrimFloat.
Import Tokenise Hierarchy Classify ClassifyFacts Facts PyView.

(** ** Claims on [ContentClassifier.classify] *)

(** C1: when the signal counts have [act_heading >= 1] and
    [scene_heading >= 1], or [act_heading >= 3], [classify] returns
    [Play] with confidence [0.95], whatever the scores; in particular when
    the extracted lines contain a line ["ACT I"] and a line ["SCENE 1"]. *)
Theorem classify_strict_override (model : ml_model) (blocks : list block) :
  ((1 <= sig_get "act_heading" (signals_of (classify model blocks)) /\
    1 <= sig_get "scene_heading" (signals_of (classify model blocks)))
   \/ 3 <= sig_get "act_heading" (signals_of (classify model blocks))
   \/ (In "ACT I" (extract_lines blocks) /\ In "SCENE 1" (extract_lines blocks)))%nat ->
  rtype (classify model blocks) = Play /\ confidence (classify model blocks) = 95 # 100.
Proof.
  intros H. apply classify_override. unfold override.
  destruct H as [[H1 H2]|[H3|[Ha Hs]]].
  - apply Nat.leb_le in H1, H2. rewrite H1, H2. reflexivity.
  - apply Nat.leb_le in H3. rewrite H3, orb_true_r. reflexivity.
  - rewrite classify_signals.
    apply (loop_hit _ _ _ act_line_hit), Nat.leb_le in Ha.
    apply (loop_hit _ _ _ scene_line_hit), Nat.leb_le in Hs.
    rewrite Ha, Hs. reflexivity.
Qed.

Definition c1_blocks : list block :=
  [mkBlock 0 [["ACT I"]; ["SCENE 1"]];
   mkBlock 0 [["I said that I was tired, and she replied that I was not, so I left."];
              ["CHAPTER 2"]; ["I know, he said, as I walked on through the long and quiet night air."]]].

Lemma classify_strict_override_witness :
  (In "ACT I" (extract_lines c1_blocks) /\ In "SCENE 1" (extract_lines c1_blocks)) /\
  rtype (classify None c1_blocks) = Play /\ confidence (classify None c1_blocks) = 95 # 100.
Proof.
  split; [split; vm_compute; auto|].
  apply (classify_strict_override None c1_blocks). right; right. split; vm_compute; auto.
Defined.

(** C8 (as corrected): [classify] is total; on blocks with no non-blank
    text line it returns [Generic], confidence [0.5] and every signal
    count [0]; on such input the novel builder returns no chapter, while
    the play builder returns its synthetic unit ["The Play"] with one
    scene ["Content"] holding no block. *)
Theorem empty_input_results (model : ml_model) (blocks : list block) :
  extract_lines blocks = [] ->
  rtype (classify model blocks) = Generic /\ confidence (classify model blocks) = 1 # 2 /\
  Forall (fun kv => snd kv = 0%nat) (signals_of (classify model blocks)) /\
  build_novel_hierarchy (tokenise blocks Novel) = [] /\
  build_play_hierarchy (tokenise blocks Play) = Some [mkAct "The Play" [mkScene "Content" []]].
Proof.
  intros H. rewrite !tokenise_no_lines by exact H.
  unfold classify. rewrite H. cbv zeta.
  destruct model as [f|]; simpl; repeat split; repeat constructor.
Qed.

Lemma empty_input_results_witness :
  extract_lines [mkBlock 0 [[""]; ["  "; ""]]; mkBlock 1 [["ACT I"]]] = [] /\
  rtype (classify None [mkBlock 0 [[""]; ["  "; ""]]; mkBlock 1 [["ACT I"]]]) = Generic.
Proof.
  split; [vm_compute; reflexivity|].
  apply (empty_input_results None [mkBlock 0 [[""]; ["  "; ""]]; mkBlock 1 [["ACT I"]]]).
  vm_compute. reflexivity.
Defined.

(** C8 fails as stated: on the empty block list the play builder does not
    return an empty sequence, though no content token exists. *)
Lemma empty_input_play_fallback :
  tokenise [] Play = [] /\
  build_play_hierarchy (tokenise [] Play) <> Some [] /\
  build_play_hierarchy (tokenise [] Play) = Some [mkAct "The Play" [mkScene "Content" []]].
Proof. split; [reflexivity|split; [discriminate|reflexivity]]. Qed.



(** C10: when the override does not fire, [play_score + novel_score >= 2.0]
    and the two scores are equal doubles ([play_score == novel_score]),
    [classify] returns [Novel]; its confidence is [0.5] unless the total
    [play_score + novel_score] overflows to infinity. *)
Theorem classify_tie_novel (model : ClassifyF64.ml_model) (blocks : list block) :
  let r := ClassifyF64.classify model blocks in
  override (ClassifyF64.signals_of r) = false ->
  (2.0 <=? ClassifyF64.r_play_score r + ClassifyF64.r_novel_score r)%float = true ->
  (ClassifyF64.r_play_score r =? ClassifyF64.r_novel_score r)%float = true ->
  ClassifyF64.rtype r = Novel /\
  (PrimFloat.is_finite (ClassifyF64.r_play_score r + ClassifyF64.r_novel_score r) = true ->
   ClassifyF64.confidence r = 0.5%float).
Proof.
  cbv zeta. unfold ClassifyF64.classify. cbv zeta.
  destruct (match model with Some f => _ | None => _ end) as [[mlp p] q].
  set (sg := ClassifyF64.sigs (fold_left _ _ _)).
  destruct (override sg) eqn:Eo; [simpl; rewrite Eo; discriminate|].
  intros _.
  destruct (p + q <? ClassifyF64.MIN_EVIDENCE)%float eqn:Ev; simpl; intros Ht Heq.
  - unfold ClassifyF64.MIN_EVIDENCE in Ev.
    rewrite (F64Facts.leb_ltb_false _ _ Ht) in Ev. discriminate.
  - pose proof (F64Facts.eqb_tie p q Ht Heq) as E. subst q.
    rewrite F64Facts.ltb_irrefl. split; [reflexivity|]. intros Hfin.
    assert (Hm : ClassifyF64.py_max p p = p)
      by (unfold ClassifyF64.py_max; destruct (p <? p)%float; reflexivity).
    rewrite Hm, (F64Facts.half_of_double p Ht Hfin).
    apply F64Facts.round3_half.
Qed.

(** A cue and four [said] lines: [play_score = novel_score = 2.0]. *)
Definition said_tie_blocks : list block :=
  [mkBlock 0 [["HAMLET."]; ["he said"]; ["he said"]; ["he said"]; ["he said"]]].

Lemma classify_tie_novel_witness :
  ClassifyF64.rtype (ClassifyF64.classify None said_tie_blocks) = Novel /\
  ClassifyF64.confidence (ClassifyF64.classify None said_tie_blocks) = 0.5%float.
Proof.
  destruct (classify_tie_novel None said_tie_blocks) as [H1 H2];
    [vm_compute; reflexivity | vm_compute; reflexivity | vm_compute; reflexivity |].
  split; [exact H1 | apply H2; vm_compute; reflexivity].
Defined.


(** ** Claims on [StructuralSegmenter] *)

(** C2 (as corrected): a stripped, non-empty line all of whose heading
    matches are discarded by the lowercase-window filter tokenizes to a
    single [Content] token holding the whole line; this is the case of
    ["ACT I SCENE 1 HAMLET speaks"] for [Play], whose two matches
    ["ACT I"] and ["SCENE 1"] both lie within 20 characters of
    ["speaks"] and have no ["Scene"] in their windows. *)
Theorem tokenise_filtered_line (dt : doc_type) (line : string) :
  strip line = line -> line <> "" ->
  forallb (fun m => noise line (fst (snd m)) (snd (snd m))) (line_matches dt line) = true ->
  tokenise [mkBlock 0 [[line]]] dt = [Content line].
Proof.
  intros Hs Hne Hn. unfold tokenise. simpl. unfold line_text. simpl. rewrite Hs.
  apply String.eqb_neq in Hne. rewrite Hne. rewrite app_nil_r.
  unfold tokenise_line. rewrite emit_all_noise by exact Hn. simpl emit.
  unfold slice. rewrite Nat.sub_0_r, substring_all, Hs, Hne. reflexivity.
Qed.

Lemma tokenise_filtered_line_witness :
  line_matches Play "ACT I SCENE 1 HAMLET speaks" = [(Act, (0, 5)); (Scene, (6, 13))] /\
  tokenise [mkBlock 0 [["ACT I SCENE 1 HAMLET speaks"]]] Play = [Content "ACT I SCENE 1 HAMLET speaks"].
Proof.
  split; [vm_compute; reflexivity|].
  apply (tokenise_filtered_line Play "ACT I SCENE 1 HAMLET speaks");
    [vm_compute; reflexivity | discriminate | vm_compute; reflexivity].
Defined.

(** C2 fails as stated: the line yields one content token, not two
    headings and a content token. *)
Lemma act_scene_line_lowercase :
  tokenise [mkBlock 0 [["ACT I SCENE 1 HAMLET speaks"]]] Play
  <> [Heading Act "ACT I" false; Heading Scene "SCENE 1" false; Content "HAMLET speaks"].
Proof. vm_compute. discriminate. Qed.

(** C3 (as corrected): the exemption from the lowercase-window filter is
    the case-sensitive text ["Scene"] in the matched text or in its
    window, for matches of either level: such a match is emitted as a
    [Heading] token; any match the filter flags is dropped without
    emitting anything. *)
Theorem scene_literal_exempt (dt : doc_type) (line : string) (lvl : level) (st e : nat) :
  In (lvl, (st, e)) (line_matches dt line) ->
  str_contains "Scene" (slice line st e) || str_contains "Scene" (window line st e) = true ->
  In (Heading lvl (slice line st e) false) (tokenise_line dt line) /\
  (forall ms lp, noise line st e = true -> emit line ((lvl, (st, e)) :: ms) lp = emit line ms lp).
Proof.
  intros Hm Hx. split.
  - apply emit_keeps; [|exact Hm]. unfold noise.
    destruct (str_contains "Scene" (slice line st e)), (str_contains "Scene" (window line st e)),
      (has_lowercase (window line st e)); simpl in *; congruence.
  - intros ms lp Hn. simpl. rewrite Hn. reflexivity.
Qed.

Lemma scene_literal_exempt_witness :
  In (Heading Scene "Scene 2" false) (tokenise_line Play "Scene 2 in the hall").
Proof.
  apply (proj1 (scene_literal_exempt Play "Scene 2 in the hall" Scene 0 7
                  ltac:(vm_compute; left; reflexivity) ltac:(vm_compute; reflexivity))).
Defined.

(** C3 fails as stated: a scene match written ["SCENE 1"] next to
    lowercase text is discarded. *)
Lemma scene_upper_dropped :
  In (Scene, (0, 7)) (line_matches Play "SCENE 1 the hall") /\
  tokenise_line Play "SCENE 1 the hall" = [Content "SCENE 1 the hall"].
Proof. split; vm_compute; [left; reflexivity|reflexivity]. Qed.

(** C4 (as corrected): in the play builder, let a heading sit at index
    [i] and let its window be the tokens [i .. min(i+8, n) - 1]; when the
    window holds at least 4 headings and the content characters from the
    first to the last of them total less than 200, every heading of the
    window is skipped: its step leaves the builder's state unchanged. *)
Theorem toc_heading_ignored (tokens : list token) (i j : nat) (t : token)
    (lvl : level) (title : string) (inf : bool) (st : pstate) :
  nth_error tokens i = Some t -> is_heading t = true ->
  (4 <= length (cluster_indices tokens i))%nat ->
  (content_length tokens i (last (cluster_indices tokens i) i) < 200)%nat ->
  In j (cluster_indices tokens i) ->
  nth_error tokens j = Some (Heading lvl title inf) ->
  play_step (toc_indices tokens) tokens j (Heading lvl title inf) st = Some st.
Proof.
  intros Hi Ht H4 H200 Hj _. apply toc_skip. exact (toc_rule tokens i t j Hi Ht H4 H200 Hj).
Qed.

Definition toc_tokens : list token :=
  [Heading Act "ACT I" false; Heading Scene "SCENE 1" false; Heading Scene "SCENE 2" false;
   Heading Act "ACT II" false; Content "x"].

Lemma toc_heading_ignored_witness :
  play_step (toc_indices toc_tokens) toc_tokens 2 (Heading Scene "SCENE 2" false) pstate0 = Some pstate0.
Proof.
  apply (toc_heading_ignored toc_tokens 0 2 (Heading Act "ACT I" false) Scene "SCENE 2" false pstate0);
    [reflexivity | reflexivity | apply Nat.leb_le; vm_compute; reflexivity
    | apply Nat.ltb_lt; vm_compute; reflexivity | vm_compute; right; right; left; reflexivity
    | reflexivity].
Defined.

(** A run of [n] letters. *)
Fixpoint letters (n : nat) : string :=
  match n with O => EmptyString | S n' => String "a" (letters n') end.

Definition toc_novel_tokens : list token :=
  [Heading Chapter "CHAPTER 1" false; Content "a"; Heading Chapter "CHAPTER 2" false; Content "b";
   Heading Chapter "CHAPTER 3" false; Content "c"; Heading Chapter "CHAPTER 4" false; Content "d"].

Definition toc_play_tokens : list token :=
  [Heading Act "ACT I" false; Heading Scene "SCENE 1" false; Heading Scene "SCENE 2" false;
   Heading Scene "SCENE 3" false; Content (letters 200); Heading Scene "SCENE 4" false; Content "x"].

(** C4 fails as stated: the novel builder keeps the chapters of a dense
    heading cluster, and in the play builder the four headings of the
    sub-window [0 .. 3] (no content between them) are not suppressed,
    because the window anchored at each heading runs on to ["SCENE 4"]. *)
Lemma toc_window_cex :
  length (cluster_indices toc_novel_tokens 0) = 4%nat /\
  content_length toc_novel_tokens 0 6 = 3%nat /\
  build_novel_hierarchy toc_novel_tokens =
    [close_chapter "CHAPTER 1" ["a"]; close_chapter "CHAPTER 2" ["b"];
     close_chapter "CHAPTER 3" ["c"]; close_chapter "CHAPTER 4" ["d"]] /\
  toc_indices toc_play_tokens = [] /\
  build_play_hierarchy toc_play_tokens =
    Some [mkAct "ACT I" [mkScene "SCENE 1" []; mkScene "SCENE 2" [];
                        mkScene "SCENE 3" [Narrative (letters 200)]; mkScene "SCENE 4" [Narrative "x"]]].
Proof. repeat (split; [vm_compute; reflexivity|]). vm_compute. reflexivity. Qed.

(** C5 (as corrected): an act heading arriving while an act is open is
    ignored, the state left unchanged, when its upper-cased title is a
    substring of the open act's upper-cased title (the reverse of the
    claimed direction). *)
Theorem act_repeat_ignored (toc : list nat) (tokens : list token) (i : nat)
    (title : string) (inf : bool) (st : pstate) (a : act) :
  cur_act st = Some a ->
  str_contains (str_upper title) (str_upper (act_title a)) = true ->
  play_step toc tokens i (Heading Act title inf) st = Some st.
Proof.
  intros Ha Hc. unfold play_step. destruct (in_toc toc i); [reflexivity|].
  simpl. unfold repeats_cur_act. rewrite Ha, Hc. reflexivity.
Qed.

Lemma act_repeat_ignored_witness :
  play_step [] [] 0 (Heading Act "Act II" false) (mkP [] (Some (mkAct "ACT III" [])) None [] true)
  = Some (mkP [] (Some (mkAct "ACT III" [])) None [] true).
Proof.
  apply (act_repeat_ignored [] [] 0 "Act II" false _ (mkAct "ACT III" [])); [reflexivity|].
  vm_compute. reflexivity.
Defined.

Definition act_repeat_tokens : list token :=
  [Heading Act "ACT I" false; Heading Scene "SCENE 1" false; Content (letters 200);
   Heading Scene "SCENE 2" false; Content (letters 200);
   Heading Act "ACT II" false; Heading Scene "SCENE 1" false; Content "y"].

(** C5 fails as stated: ["ACT II"] contains ["ACT I"], yet it opens a
    second act. *)
Lemma act_repeat_direction_cex :
  str_contains (str_upper "ACT I") (str_upper "ACT II") = true /\
  option_map (map act_title) (build_play_hierarchy act_repeat_tokens) = Some ["ACT I"; "ACT II"].
Proof. split; vm_compute; reflexivity. Qed.

(** C6 (code bug): the act synthesized for a scene heading with no open
    act is a dict with keys [id], [title], [children] and no [inferred]
    key; on the blocks [[SCENE 1][But soft ...]] the single returned unit
    is that act, titled ["ACT I"], and [units[0]["inferred"]] raises
    [KeyError]. *)
Theorem implicit_act_no_inferred :
  (forall a : act, py_get "inferred" (act_to_py a) = None) /\
  segment [mkBlock 0 [["SCENE 1"]; ["But soft, what light through yonder window breaks?"]]] Play =
    Some [act_to_py (mkAct "ACT I"
            [mkScene "SCENE 1" [Narrative "But soft, what light through yonder window breaks?"]])].
Proof. split; [intros a; reflexivity|vm_compute; reflexivity]. Qed.

(** C7 (code bug): on the blocks [[Chapter 1][para A][para B][Chapter 2][para C]]
    the tokenizer drops both chapter matches (the match text itself is
    lowercase and holds no ["Scene"]), so the novel builder returns one
    chapter ["Beginning"] holding all five lines, not two chapters. *)
Theorem novel_chapter_lines_dropped :
  line_matches Novel "Chapter 1" = [(Chapter, (0, 9))] /\ noise "Chapter 1" 0 9 = true /\
  tokenise [mkBlock 0 [["Chapter 1"]; ["para A"]; ["para B"]; ["Chapter 2"]; ["para C"]]] Novel =
    [Content "Chapter 1"; Content "para A"; Content "para B"; Content "Chapter 2"; Content "para C"] /\
  build_novel_hierarchy
    (tokenise [mkBlock 0 [["Chapter 1"]; ["para A"]; ["para B"]; ["Chapter 2"]; ["para C"]]] Novel) =
    [close_chapter "Beginning" ["Chapter 1"; "para A"; "para B"; "Chapter 2"; "para C"]].
Proof. repeat (split; [vm_compute; reflexivity|]). vm_compute. reflexivity. Qed.

(** * Further properties of the code *)
Import SearchHeading Analyzer ExtraFacts.

(** ** ContentClassifier *)

(** [_extract_lines] yields only non-empty, already stripped lines. *)
Theorem extract_lines_clean (blocks : list block) :
  Forall (fun l => l <> ""%string /\ strip l = l) (extract_lines blocks).
Proof.
  apply Forall_forall. intros l Hin. unfold extract_lines in Hin.
  apply in_flat_map in Hin as [b [_ Hb]]. destruct (btype b =? 0); [|destruct Hb].
  apply filter_In in Hb as [Hm Hne]. apply in_map_iff in Hm as [spans [<- _]].
  split; [apply neq_empty, Hne|unfold line_text; apply strip_idem].
Qed.

(** The signal dict of [classify] always has exactly the ten weight keys, in order. *)
Theorem classify_signal_keys (model : ml_model) (blocks : list block) :
  map fst (signals_of (classify model blocks)) = signal_keys.
Proof.
  rewrite classify_signals. unfold loop. rewrite (proj1 (fold_grows _ _ _)). apply signals0_keys.
Qed.

(** The ["stage_verb"] signal is never incremented: [classify] always reports it as [0]. *)
Theorem classify_stage_verb_zero (model : ml_model) (blocks : list block) :
  sig_get "stage_verb" (signals_of (classify model blocks)) = 0%nat.
Proof.
  rewrite classify_signals. unfold loop.
  assert (H := fold_bumps (length (extract_lines blocks)) "stage_verb" 0
                 (fun a it => match it with (i, x) => line_step_bumps _ a i x "stage_verb" end)
                 (enumerate_from 0 (extract_lines blocks)) (mkAcc 0 0 signals0)).
  simpl sigs in H. rewrite signals0_get in H. lia.
Qed.

(** Every signal count except ["first_person"] is at most the number of
    non-blank lines: each line raises it by at most one. *)
Theorem classify_signal_count_bound (model : ml_model) (blocks : list block) (k : string) :
  k <> "first_person"%string ->
  (sig_get k (signals_of (classify model blocks)) <= length (extract_lines blocks))%nat.
Proof.
  intros Hk. rewrite classify_signals. unfold loop.
  assert (Hm : forall a it, bumps k 1 a (line_step (length (extract_lines blocks)) a it)).
  { intros a [i x]. generalize (line_step_bumps (length (extract_lines blocks)) a i x k).
    unfold bumps. generalize (line_bump_le1 k (findall_count Classifier.FIRST_PERS (strip x)) Hk). lia. }
  assert (H := fold_bumps _ k 1 Hm (enumerate_from 0 (extract_lines blocks)) (mkAcc 0 0 signals0)).
  simpl sigs in H. rewrite signals0_get, enumerate_length in H. lia.
Qed.

Lemma classify_signal_count_bound_witness :
  (sig_get "act_heading" (signals_of (classify None c1_blocks)) <= length (extract_lines c1_blocks))%nat.
Proof. apply (classify_signal_count_bound None c1_blocks "act_heading"). discriminate. Defined.



(** Blocks whose ["type"] is not [0] (images) change neither the
    classification nor the segmentation. *)
Theorem non_text_blocks_ignored (model : ml_model) (blocks : list block) (dt : doc_type) :
  classify model (filter (fun b => btype b =? 0) blocks) = classify model blocks /\
  segment (filter (fun b => btype b =? 0) blocks) dt = segment blocks dt.
Proof.
  split.
  - unfold classify. rewrite extract_lines_text. reflexivity.
  - unfold segment. rewrite tokenise_text. reflexivity.
Qed.

(** ** LiteratureAnalyzer.analyze_text *)

(** [analyze_text] hands the classifier and the segmenter exactly its
    stripped non-empty paragraphs, one line per paragraph. *)
Theorem analyze_text_lines (text : string) (dt : doc_type) :
  extract_lines (mock_blocks text) = paragraphs_of text /\
  tokenise (mock_blocks text) dt = flat_map (tokenise_line dt) (paragraphs_of text).
Proof.
  unfold mock_blocks. generalize (paragraphs_clean text). generalize (paragraphs_of text).
  induction l as [|p ps IH]; intros Hc; [split; reflexivity|].
  inversion Hc as [|? ? [Hne Hs] Hc']; subst. destruct (IH Hc') as [IH1 IH2].
  split.
  - unfold extract_lines in *. simpl flat_map. rewrite IH1. simpl. unfold line_text. simpl.
    rewrite Hs. apply String.eqb_neq in Hne. rewrite Hne. reflexivity.
  - unfold tokenise in *. simpl flat_map. rewrite IH2. simpl. unfold line_text. simpl.
    rewrite Hs. apply String.eqb_neq in Hne. rewrite Hne. rewrite app_nil_r. reflexivity.
Qed.

(** ** StructuralSegmenter._search_heading *)

(** A heading found by [_search_heading] is an act, scene or chapter span
    [(a, b)] with [a <= b] inside the first 128 characters; texts shorter
    than 3 characters never yield one. *)
Theorem search_heading_span (text : string) (dt : doc_type) (k : string) (a b : nat) :
  search_heading text dt = (k, Some (a, b)) ->
  (k = "act" \/ k = "scene" \/ k = "chapter")%string /\
  (a <= b /\ b <= Nat.min 128 (String.length text) /\ 3 <= String.length text)%nat.
Proof.
  unfold search_heading. destruct (String.length text <? 3) eqn:L; [discriminate|].
  apply Nat.ltb_ge in L. rewrite <- substring_length.
  set (st := substring 0 128 text).
  assert (Hm : forall r e, rx_match_at r st 0 = Some e -> (0 <= e <= String.length st)%nat)
    by (intros r e; apply rx_match_at_bound; lia).
  assert (Hs : forall r a b, search_from r st 0 (String.length st) = Some (a, b) ->
                 (a <= b <= String.length st)%nat)
    by (intros r a' b' H; apply search_from_bound in H; lia).
  destruct (doc_type_eqb dt Play).
  - destruct (rx_match_at ACT_RE st 0) as [e|] eqn:E1;
      [intros H; injection H as <- <- <-; apply Hm in E1; split; [auto|lia]|].
    destruct (rx_match_at SCENE_RE st 0) as [e|] eqn:E2;
      [intros H; injection H as <- <- <-; apply Hm in E2; split; [auto|lia]|].
    destruct (_ && _); [discriminate|].
    destruct (search_from Segmenter.SMUSHED_ACT_RE st 0 _) as [[a' b']|] eqn:E3;
      [intros H; injection H as <- <- <-; apply Hs in E3; split; [auto|lia]|].
    unfold found. destruct (search_from Segmenter.SMUSHED_SCENE_RE st 0 _) as [[a' b']|] eqn:E4;
      [intros H; injection H as <- <- <-; apply Hs in E4; split; [auto|lia]|discriminate].
  - destruct (rx_match_at Segmenter.CHAPTER_RE st 0) as [e|] eqn:E1;
      [intros H; injection H as <- <- <-; apply Hm in E1; split; [auto|lia]|discriminate].
Qed.

Lemma search_heading_span_witness :
  (("act" = "act" \/ "act" = "scene" \/ "act" = "chapter")%string /\
   (12 <= 17 /\ 17 <= Nat.min 128 (String.length "187 MACBETH ACT 5. SC. 8") /\
    3 <= String.length "187 MACBETH ACT 5. SC. 8")%nat).
Proof.
  apply (search_heading_span "187 MACBETH ACT 5. SC. 8" Play "act" 12 17).
  vm_compute. reflexivity.
Defined.

(** ** StructuralSegmenter._tokenise *)

(** Every token of [_tokenise] is either a non-empty, stripped content text,
    or a heading with [inferred = False] whose level is act or scene for a
    play and chapter otherwise. *)
Theorem tokens_well_formed (blocks : list block) (dt : doc_type) :
  Forall (token_ok dt) (tokenise blocks dt).
Proof.
  apply Forall_forall. intros t Ht. unfold tokenise in Ht.
  apply in_flat_map in Ht as [b [_ Hb]]. destruct (btype b =? 0); [|destruct Hb].
  apply in_flat_map in Hb as [spans [_ Hs]]. destruct (line_text spans =? "")%string; [destruct Hs|].
  exact (proj1 (Forall_forall _ _) (tokenise_line_ok dt _) t Hs).
Qed.

(** ** StructuralSegmenter._build_play_hierarchy *)

(** The play builder never returns an empty list of acts: with no act it
    falls back to the single unit ["The Play"]. *)
Theorem play_never_empty (tokens : list token) : build_play_hierarchy tokens <> Some [].
Proof.
  unfold build_play_hierarchy.
  destruct (play_loop (toc_indices tokens) tokens 0 tokens pstate0) as [st|]; [|discriminate].
  intros H. injection H as H. unfold play_finish in H. cbv zeta in H.
  destruct (cur_act (flush st)); [destruct (cur_scene (flush st))|];
    destruct (acts (flush st)); discriminate H.
Qed.

(** When every heading lies in a TOC cluster (in particular when there is
    no heading at all), the play builder returns its fallback unit holding
    all the content texts. *)
Theorem play_toc_only_fallback (tokens : list token) :
  (forall i lvl t inf, nth_error tokens i = Some (Heading lvl t inf) -> In i (toc_indices tokens)) ->
  build_play_hierarchy tokens = Some (fallback_single_unit tokens).
Proof.
  intros H. unfold build_play_hierarchy. rewrite play_loop_skip_all; [reflexivity|].
  intros k lvl t inf Hk. apply in_toc_true. exact (H k lvl t inf Hk).
Qed.

Lemma play_toc_only_fallback_witness :
  build_play_hierarchy
    [Heading Act "ACT I" false; Heading Scene "SCENE 1" false; Heading Act "ACT II" false;
     Heading Scene "SCENE 1" false; Content "Enter Hamlet"] =
  Some (fallback_single_unit
    [Heading Act "ACT I" false; Heading Scene "SCENE 1" false; Heading Act "ACT II" false;
     Heading Scene "SCENE 1" false; Content "Enter Hamlet"]).
Proof.
  apply play_toc_only_fallback.
  intros i lvl t inf H.
  do 4 (destruct i as [|i]; [vm_compute; auto 10|]).
  destruct i as [|i]; simpl in H; [discriminate H|destruct i; discriminate H].
Defined.

(** An act heading outside any TOC cluster at the start of the stream,
    directly followed by a content token, makes the play builder raise
    [KeyError] (it reads [next_t["level"]] of the content token). *)
Theorem play_act_then_content_raises (t c : string) (inf : bool) (rest : list token) :
  ~ In 0 (toc_indices (Heading Act t inf :: Content c :: rest)) ->
  build_play_hierarchy (Heading Act t inf :: Content c :: rest) = None.
Proof.
  intros H. unfold build_play_hierarchy. cbn [play_loop].
  unfold play_step at 1. rewrite (in_toc_false _ _ H). reflexivity.
Qed.

Lemma play_act_then_content_raises_witness :
  build_play_hierarchy [Heading Act "ACT I" false; Content "Enter Hamlet"] = None.
Proof. apply play_act_then_content_raises. vm_compute. tauto. Defined.

(** Conversely, the play builder raises only there: if no act heading is
    followed by a content token, it returns a list of acts. *)
Theorem play_builder_no_keyerror (tokens : list token) :
  (forall i t inf, nth_error tokens i = Some (Heading Act t inf) -> next_is_content tokens i = false) ->
  build_play_hierarchy tokens <> None.
Proof.
  intros H. unfold build_play_hierarchy.
  destruct (play_loop (toc_indices tokens) tokens 0 tokens pstate0) eqn:E; [discriminate|].
  exfalso. revert E. apply play_loop_total. exact H.
Qed.

Lemma play_builder_no_keyerror_witness :
  build_play_hierarchy [Heading Act "ACT I" false; Heading Scene "SCENE 1" false; Content "Enter Hamlet"]
    <> None.
Proof.
  apply play_builder_no_keyerror. intros i t inf H.
  destruct i as [|[|[|i]]]; simpl in H; [reflexivity|discriminate H|discriminate H|destruct i; discriminate H].
Defined.

(** ** StructuralSegmenter._build_novel_hierarchy *)

(** The novel builder loses and invents no text: the paragraphs of its
    chapters, in order, are exactly the content tokens' texts. Each chapter
    has one untitled section with at least one paragraph, and its title is
    ["Beginning"] or the title of a chapter heading of the stream. *)
Theorem novel_paragraphs_preserved (tokens : list token) :
  concat (map (fun c => concat (map paragraphs (ch_children c))) (build_novel_hierarchy tokens))
    = map text_of (filter is_content tokens) /\
  Forall (fun c => exists t ps, c = close_chapter t ps /\ ps <> [] /\
            (t = "Beginning"%string \/ exists inf, In (Heading Chapter t inf) tokens))
         (build_novel_hierarchy tokens).
Proof.
  unfold build_novel_hierarchy.
  destruct (fold_left novel_step tokens ([], "Beginning"%string, [])) as [[chs title] paras] eqn:E.
  destruct (novel_fold_inv tokens _ _ _ E) as (H1 & H2 & H3).
  destruct paras as [|p ps].
  - rewrite app_nil_r in H1. auto.
  - split.
    + rewrite map_app, concat_app. simpl. rewrite !app_nil_r. exact H1.
    + apply Forall_app. split; [exact H2|]. constructor; [|constructor].
      exists title, (p :: ps). split; [reflexivity|split; [discriminate|exact H3]].
Qed.

(** ** StructuralSegmenter._analyse_play_content *)

(** [_analyse_play_content] returns at most one block per line; a dialogue's
    character is a cue line of at most 1000 characters, a stage direction is
    a line of at most 1000 characters opening with [[] or [(] that is not a
    cue, and a narrative block is one whole line. *)
Theorem analyse_play_content_blocks (lines : list string) :
  length (analyse_play_content lines) <= length lines /\
  Forall (play_block_ok lines) (analyse_play_content lines).
Proof. apply analyse_play_content_inv. Qed.

(** ** LiteratureAnalyzer._flatten_units *)

(** On the acts of the play builder, [_flatten_units] never raises: it
    gives one flat unit per scene, titled ["<act> - <scene>"] (a scene
    dict never carries ["inferred"]), whose content joins the rendered
    blocks with blank lines. *)
Theorem flatten_play_units (acts : list act) :
  flatten_units (map act_to_py acts) Play =
  Some (flat_map (fun a => map (fun s =>
          PDict [("title", PStr (act_title a ++ " - " ++ scene_title s)%string);
                 ("content", PStr (String.concat nl2 (map flat_line (scene_blocks s))));
                 ("blocks", PList (map cblock_to_py (scene_blocks s)))]) (act_children a)) acts).
Proof.
  unfold flatten_units. simpl doc_type_eqb. cbv iota.
  rewrite (map_opt_map flat_act act_to_py
             (fun a => map (fun s =>
                PDict [("title", PStr (act_title a ++ " - " ++ scene_title s)%string);
                       ("content", PStr (String.concat nl2 (map flat_line (scene_blocks s))));
                       ("blocks", PList (map cblock_to_py (scene_blocks s)))]) (act_children a))).
  - rewrite flat_map_concat_map. reflexivity.
  - intros a _. unfold flat_act. simpl.
    apply map_opt_map. intros s _. apply flat_scene_py.
Qed.

(** On the chapters of the novel builder (any non-play type), [_flatten_units]
    never raises: one flat unit per section, titled by the chapter (and
    ["<chapter> - <section>"] only for a titled section), whose content is
    the section's paragraphs joined by blank lines, with no dialogue. *)
Theorem flatten_novel_units (chs : list chapter) (dt : doc_type) :
  doc_type_eqb dt Play = false ->
  flatten_units (map chapter_to_py chs) dt =
  Some (flat_map (fun c => map (fun s =>
          PDict [("title", PStr (if (sec_title s =? "")%string then ch_title c
                                 else (ch_title c ++ " - " ++ sec_title s)%string));
                 ("content", PStr (section_content s)); ("dialogue", PList [])]) (ch_children c)) chs).
Proof.
  intros Hdt. unfold flatten_units. rewrite Hdt.
  rewrite (map_opt_map flat_chapter chapter_to_py
             (fun c => map (fun s =>
                PDict [("title", PStr (if (sec_title s =? "")%string then ch_title c
                                       else (ch_title c ++ " - " ++ sec_title s)%string));
                       ("content", PStr (section_content s)); ("dialogue", PList [])]) (ch_children c))).
  - rewrite flat_map_concat_map. reflexivity.
  - intros c _. unfold flat_chapter. simpl.
    apply map_opt_map. intros s _. apply flat_section_py.
Qed.

Lemma flatten_novel_units_witness :
  flatten_units (map chapter_to_py [close_chapter "Beginning" ["It was dark."]]) Novel =
  Some [PDict [("title", PStr "Beginning"); ("content", PStr "It was dark."); ("dialogue", PList [])]].
Proof. apply (flatten_novel_units [close_chapter "Beginning" ["It was dark."]] Novel). reflexivity. Defined.

(** ** LiteratureAnalyzer._extract_first_content *)

(** Whatever the units, a sample returned by [_extract_first_content] has
    at most 2000 characters. *)
Theorem first_content_bound (units : list pyval) (dt : doc_type) (s : string) :
  extract_first_content units dt = Some s -> String.length s <= 2000.
Proof.
  unfold extract_first_content. intros H.
  split_hyp_matches H; try discriminate H; injection H as <-;
    try (simpl; lia); unfold trunc2000; rewrite substring_length; lia.
Qed.

Lemma first_content_bound_witness : String.length "Enter Hamlet" <= 2000.
Proof.
  apply (first_content_bound [act_to_py (mkAct "ACT I" [mkScene "SCENE 1" [Narrative "Enter Hamlet"]])] Play).
  reflexivity.
Defined.

(** On the play builder's acts, [_extract_first_content] never raises: it
    returns the first scene of the first act, one line per block (["C: text"]
    for a dialogue of character [C], the bare text otherwise, stage
    directions included), joined by newlines and cut at 2000 characters;
    [""] when there is no act or no scene. *)
Theorem first_content_play (acts : list act) :
  extract_first_content (map act_to_py acts) Play =
  Some (match acts with
        | [] => ""%string
        | a :: _ => match act_children a with
                    | [] => ""%string
                    | s :: _ => trunc2000 (String.concat nl1 (map first_line (scene_blocks s)))
                    end
        end).
Proof.
  destruct acts as [|a acts]; [reflexivity|].
  destruct a as [at' [|s ss]]; [reflexivity|]. unfold extract_first_content. simpl.
  rewrite (map_opt_map first_block_line cblock_to_py first_line) by (intros; apply first_block_line_py).
  reflexivity.
Qed.

(** On the novel builder's chapters (any non-play type), it returns the
    first section's content cut at 2000 characters, [""] when there is no
    chapter. *)
Theorem first_content_novel (chs : list chapter) (dt : doc_type) :
  doc_type_eqb dt Play = false ->
  extract_first_content (map chapter_to_py chs) dt =
  Some (match chs with
        | [] => ""%string
        | c :: _ => match ch_children c with
                    | [] => ""%string
                    | s :: _ => trunc2000 (section_content s)
                    end
        end).
Proof.
  intros Hdt. destruct chs as [|c chs]; [reflexivity|].
  destruct c as [ct [|s ss]]; unfold extract_first_content; simpl; rewrite Hdt; reflexivity.
Qed.

Lemma first_content_novel_witness :
  extract_first_content (map chapter_to_py [close_chapter "Beginning" ["It was dark."]]) Novel =
  Some "It was dark."%string.
Proof. apply (first_content_novel [close_chapter "Beginning" ["It was dark."]] Novel). reflexivity. Defined.

(** ** LiteratureAnalyzer.analyze_text: [text.split("\n\n")] *)

(** The split of [analyze_text] loses nothing: joining the pieces of
    [text.split(sep)] with a non-empty [sep] gives back [text]. *)
Theorem py_split_join (sep text : string) :
  sep <> ""%string -> String.concat sep (py_split sep text) = text.
Proof.
  intros Hs. apply string_l_inj. rewrite concat_join. unfold py_split.
  rewrite map_map, (map_ext (fun x => list_ascii_of_string (string_of_list_ascii x)) (fun x => x)
                          list_ascii_of_string_of_list_ascii), map_id.
  rewrite split_go_join; [reflexivity|].
  destruct sep; [contradiction|discriminate].
Qed.

Lemma py_split_join_witness :
  String.concat nl2 (py_split nl2 ("ACT I" ++ nl2 ++ "Enter Hamlet")) = ("ACT I" ++ nl2 ++ "Enter Hamlet")%string.
Proof. apply py_split_join. discriminate. Defined.
